(** * meta-webhook-relay: resolution, sanitising and forward/mirror pipeline

    A shallow embedding of the identifier extractor ([extractId]), the
    forwarder with its two header sanitisers ([filterHeaders],
    [sanitizeIncomingHeaders], [forwardRequest]; the server imports them
    from [./lib/forward.js]) and the server ([resolveDownstream],
    [appendQueryParams], [createWebhookHandler], the raw-body
    middleware).  JavaScript values are an inductive type, synchronous
    code that may throw lives in the [result] monad, and the asynchronous
    code ([forwardRequest], the route handler) is a finite tree of awaited
    operations that is run against a description of the destination.
    Line numbers in comments are those of the source file the function
    stands in. *)

From Stdlib Require Import String Ascii List Bool Arith NArith Lia.
From Stdlib Require Import DecimalString Sorted.
Import ListNotations.
Open Scope list_scope.
Open Scope string_scope.

(* ------------------------------------------------------------------ *)
(** * Thrown errors and the [result] monad *)
(* ------------------------------------------------------------------ *)

Record error : Type := mkError { err_name : string; err_message : string }.

Inductive result (A : Type) : Type :=
| Ok (a : A)
| Raise (e : error).
Arguments Ok {A} a.
Arguments Raise {A} e.

Definition rbind {A B : Type} (c : result A) (k : A -> result B) : result B :=
  match c with
  | Ok a => k a
  | Raise e => Raise e
  end.

Notation "'let*' x ':=' c 'in' k" := (rbind c (fun x => k))
  (at level 10, x name, c at level 100, k at level 200).

Definition TypeError (msg : string) : error := mkError "TypeError" msg.

(* ------------------------------------------------------------------ *)
(** * JavaScript values *)
(* ------------------------------------------------------------------ *)

(** The values the relay handles are what [JSON.parse] and the query
    parser build, plus the built-in functions and prototype objects a
    property read can reach through the prototype chain.

    - [VNum repr]: a Number, identified by [repr = String(n)]
      ([Number::toString] tells all numbers apart except [+0]/[-0], which
      behave alike here).
    - [VObj props]: an ordinary object whose prototype is
      [Object.prototype]; [props] are its own enumerable properties in
      [Object.entries] order.
    - [VArr xs]: an Array without holes.
    - [VBuiltin owner key]: the value of property [key] of the built-in
      prototype [owner] (a function, or for ["__proto__"] the prototype
      itself). *)
#[warnings="-register-all"]
Inductive value : Type :=
| VUndefined
| VNull
| VBool (b : bool)
| VNum (repr : string)
| VStr (s : string)
| VArr (xs : list value)
| VObj (props : list (string * value))
| VBuiltin (owner key : string).

Definition obj : Type := list (string * value).

(** [ToBoolean]. *)
Definition truthy (v : value) : bool :=
  match v with
  | VUndefined | VNull => false
  | VBool b => b
  | VNum r => negb (String.eqb r "0" || String.eqb r "NaN")
  | VStr s => negb (String.eqb s "")
  | VArr _ | VObj _ | VBuiltin _ _ => true
  end.

(** [a || b]. *)
Definition js_or (a b : value) : value := if truthy a then a else b.

(** [typeof v === 'object'] (true of [null] as well). *)
Definition typeof_object (v : value) : bool :=
  match v with
  | VNull | VArr _ | VObj _ => true
  | VBuiltin _ key => String.eqb key "__proto__"
  | _ => false
  end.

Definition isArray (v : value) : bool :=
  match v with VArr _ => true | _ => false end.

(** [v.length] of an Array. *)
Definition array_length (v : value) : nat :=
  match v with VArr xs => List.length xs | _ => 0 end.

(* ------------------------------------------------------------------ *)
(** * Strings: case mapping, search, array indices *)
(* ------------------------------------------------------------------ *)

(** Header names and HTTP methods are ASCII tokens; [toLowerCase] and
    [toUpperCase] act on the 26 letters and leave other bytes alone. *)
Definition lower_ascii (c : ascii) : ascii :=
  let n := nat_of_ascii c in
  if ((65 <=? n) && (n <=? 90))%nat then ascii_of_nat (n + 32) else c.

Definition upper_ascii (c : ascii) : ascii :=
  let n := nat_of_ascii c in
  if ((97 <=? n) && (n <=? 122))%nat then ascii_of_nat (n - 32) else c.

Fixpoint string_map (f : ascii -> ascii) (s : string) : string :=
  match s with
  | EmptyString => EmptyString
  | String c s' => String (f c) (string_map f s')
  end.

Definition toLowerCase : string -> string := string_map lower_ascii.
Definition toUpperCase : string -> string := string_map upper_ascii.

(** [haystack.includes(needle)]. *)
Fixpoint str_includes (needle haystack : string) : bool :=
  prefix needle haystack
  || match haystack with
     | EmptyString => false
     | String _ rest => str_includes needle rest
     end.

(** [xs.includes(s)] for a list of strings. *)
Definition includes (xs : list string) (s : string) : bool :=
  existsb (String.eqb s) xs.

Definition nat_to_string (n : nat) : string :=
  NilZero.string_of_uint (Nat.to_uint n).

Definition N_to_string (n : N) : string :=
  NilZero.string_of_uint (N.to_uint n).

Definition digit_of (c : ascii) : option N :=
  let n := N_of_ascii c in
  if ((48 <=? n) && (n <=? 57))%N then Some (n - 48)%N else None.

Fixpoint digits_value (acc : N) (s : string) : option N :=
  match s with
  | EmptyString => Some acc
  | String c s' =>
      match digit_of c with
      | Some d => digits_value (acc * 10 + d)%N s'
      | None => None
      end
  end.

(** An array index is a canonical numeric string (no sign, no leading
    zero) whose value is below 2^32 - 1.  Such property keys are what
    Arrays store their elements under and what ordinary objects enumerate
    first, in ascending order. *)
Definition array_index (k : string) : option N :=
  match k with
  | EmptyString => None
  | String c rest =>
      if Ascii.eqb c "0" && negb (String.eqb rest "") then None
      else match digits_value 0 k with
           | Some n => if (n <? 4294967295)%N then Some n else None
           | None => None
           end
  end.

(* ------------------------------------------------------------------ *)
(** * Property reads *)
(* ------------------------------------------------------------------ *)

Fixpoint own (props : obj) (k : string) : option value :=
  match props with
  | [] => None
  | (k', v) :: rest => if String.eqb k' k then Some v else own rest k
  end.

Definition has_own (props : obj) (k : string) : bool :=
  match own props k with Some _ => true | None => false end.

Definition Object_prototype : list string :=
  [ "constructor"; "__defineGetter__"; "__defineSetter__"; "hasOwnProperty";
    "__lookupGetter__"; "__lookupSetter__"; "isPrototypeOf";
    "propertyIsEnumerable"; "toString"; "valueOf"; "__proto__";
    "toLocaleString" ].

Definition Array_prototype : list string :=
  [ "constructor"; "at"; "concat"; "copyWithin"; "fill"; "find"; "findIndex";
    "findLast"; "findLastIndex"; "lastIndexOf"; "pop"; "push"; "reverse";
    "shift"; "unshift"; "slice"; "sort"; "splice"; "includes"; "indexOf";
    "join"; "keys"; "entries"; "values"; "forEach"; "filter"; "flat";
    "flatMap"; "map"; "every"; "some"; "reduce"; "reduceRight";
    "toLocaleString"; "toString"; "toReversed"; "toSorted"; "toSpliced";
    "with" ].

Definition String_prototype : list string :=
  [ "constructor"; "anchor"; "at"; "big"; "blink"; "bold"; "charAt";
    "charCodeAt"; "codePointAt"; "concat"; "endsWith"; "fontcolor";
    "fontsize"; "fixed"; "includes"; "indexOf"; "isWellFormed"; "italics";
    "lastIndexOf"; "link"; "localeCompare"; "match"; "matchAll"; "normalize";
    "padEnd"; "padStart"; "repeat"; "replace"; "replaceAll"; "search";
    "slice"; "small"; "split"; "strike"; "sub"; "substr"; "substring"; "sup";
    "startsWith"; "toString"; "toWellFormed"; "trim"; "trimStart";
    "trimLeft"; "trimEnd"; "trimRight"; "toLocaleLowerCase";
    "toLocaleUpperCase"; "toLowerCase"; "toUpperCase"; "valueOf" ].

Definition Number_prototype : list string :=
  [ "constructor"; "toExponential"; "toFixed"; "toPrecision"; "toString";
    "valueOf"; "toLocaleString" ].

Definition Boolean_prototype : list string :=
  [ "constructor"; "toString"; "valueOf" ].

(** A read that found no own property walks the chain
    [proto] -> [Object.prototype]. *)
Definition inherited (proto : string) (names : list string) (k : string)
  : value :=
  if includes names k then VBuiltin proto k
  else if includes Object_prototype k then VBuiltin "Object.prototype" k
  else VUndefined.

Definition get_object (props : obj) (k : string) : value :=
  match own props k with
  | Some v => v
  | None => inherited "Object.prototype" Object_prototype k
  end.

Definition get_array (xs : list value) (k : string) : value :=
  match array_index k with
  | Some i =>
      match nth_error xs (N.to_nat i) with
      | Some v => v
      | None => VUndefined
      end
  | None =>
      if String.eqb k "length" then VNum (nat_to_string (List.length xs))
      else inherited "Array.prototype" Array_prototype k
  end.

Definition get_string (s : string) (k : string) : value :=
  match array_index k with
  | Some i =>
      match String.get (N.to_nat i) s with
      | Some c => VStr (String c EmptyString)
      | None => VUndefined
      end
  | None =>
      if String.eqb k "length" then VNum (nat_to_string (String.length s))
      else inherited "String.prototype" String_prototype k
  end.

(** [v[k]] / [v.k]: throws on [null] and [undefined]. *)
Definition js_get (v : value) (k : string) : result value :=
  match v with
  | VUndefined =>
      Raise (TypeError ("Cannot read properties of undefined (reading '"
                          ++ k ++ "')"))
  | VNull =>
      Raise (TypeError ("Cannot read properties of null (reading '"
                          ++ k ++ "')"))
  | VObj props => Ok (get_object props k)
  | VArr xs => Ok (get_array xs k)
  | VStr s => Ok (get_string s k)
  | VNum _ => Ok (inherited "Number.prototype" Number_prototype k)
  | VBool _ => Ok (inherited "Boolean.prototype" Boolean_prototype k)
  | VBuiltin _ _ => Ok VUndefined
  end.

(** [v?.k]. *)
Definition js_get_opt (v : value) (k : string) : value :=
  match v with
  | VUndefined | VNull => VUndefined
  | _ => match js_get v k with Ok x => x | Raise _ => VUndefined end
  end.

(* ------------------------------------------------------------------ *)
(** * [ToString] *)
(* ------------------------------------------------------------------ *)

Definition builtin_to_string (owner key : string) : string :=
  if String.eqb key "__proto__" then
    if String.eqb owner "Object.prototype" then "[object Object]"
    else if String.eqb owner "Number.prototype" then "0"
    else if String.eqb owner "Boolean.prototype" then "false"
    else ""
  else if String.eqb key "constructor" then
    "function "
      ++ substring 0 (String.length owner - String.length ".prototype") owner
      ++ "() { [native code] }"
  else "function " ++ key ++ "() { [native code] }".

(** [String(v)], [`${v}`] and the conversion of a property key.  An
    ordinary object prints as [[object Object]] through the inherited
    [toString]; when an own property shadows [toString] with a value that
    cannot be called, the conversion falls back on [valueOf], gets no
    primitive, and throws.  An Array prints as [join(",")], with [null] and
    [undefined] elements printed empty. *)
Fixpoint ToString (v : value) : result string :=
  match v with
  | VUndefined => Ok "undefined"
  | VNull => Ok "null"
  | VBool true => Ok "true"
  | VBool false => Ok "false"
  | VNum r => Ok r
  | VStr s => Ok s
  | VObj props =>
      if has_own props "toString"
      then Raise (TypeError "Cannot convert object to primitive value")
      else Ok "[object Object]"
  | VBuiltin owner key => Ok (builtin_to_string owner key)
  | VArr xs =>
      (fix join (l : list value) : result string :=
         match l with
         | [] => Ok ""
         | x :: rest =>
             let* sx := match x with
                        | VUndefined | VNull => Ok ""
                        | _ => ToString x
                        end in
             match rest with
             | [] => Ok sx
             | _ :: _ => let* sr := join rest in Ok (sx ++ "," ++ sr)
             end
         end) xs
  end.

(* ------------------------------------------------------------------ *)
(** * The identifier extractor: [extractId] *)
(* ------------------------------------------------------------------ *)

(** [extractId(body)]: the page/IG id as a string, or [null]. *)
Definition extractId (body : value) : result value :=
  let entry := js_get_opt body "entry" in
  if truthy entry && isArray entry && (0 <? array_length entry)%nat then
    let* firstEntry := js_get entry "0" in
    let* id := js_get firstEntry "id" in
    if truthy id then
      let* s := ToString id in Ok (VStr s)
    else Ok VNull
  else Ok VNull.

(* ------------------------------------------------------------------ *)
(** * Writing properties: [o[k] = v] *)
(* ------------------------------------------------------------------ *)

(** An ordinary object lists its array-index keys first, in ascending
    numeric order, and then its other string keys in the order they were
    created.  Assigning to an existing key keeps its place.  Assigning to
    ["__proto__"] on an object that has no own property of that name runs
    the setter inherited from [Object.prototype]: it creates no property
    (it changes the prototype when the value is an object or [null], and
    does nothing for any other value), so the own properties, which are
    what [Object.entries] and [fetch] read, stay as they are. *)
Fixpoint obj_update (k : string) (v : value) (o : obj) : obj :=
  match o with
  | [] => []
  | (k', v') :: rest =>
      if String.eqb k' k then (k', v) :: rest
      else (k', v') :: obj_update k v rest
  end.

Fixpoint obj_insert_index (n : N) (k : string) (v : value) (o : obj) : obj :=
  match o with
  | [] => [(k, v)]
  | (k', v') :: rest =>
      match array_index k' with
      | Some m =>
          if (m <? n)%N then (k', v') :: obj_insert_index n k v rest
          else (k, v) :: o
      | None => (k, v) :: o
      end
  end.

Definition obj_set (k : string) (v : value) (o : obj) : obj :=
  if has_own o k then obj_update k v o
  else if String.eqb k "__proto__" then o
  else match array_index k with
       | Some n => obj_insert_index n k v o
       | None => (o ++ [(k, v)])%list
       end.

(* ------------------------------------------------------------------ *)
(** * The forwarder: header sanitising *)
(* ------------------------------------------------------------------ *)

Definition HOP_BY_HOP_HEADERS : list string :=
  [ "transfer-encoding"; "connection"; "keep-alive"; "proxy-authenticate";
    "proxy-authorization"; "te"; "trailers"; "upgrade"; "content-length";
    "host" ].

(** What [headers.entries()] of a fetch [Headers] object yields: pairs of
    name and value, one pair per name except for [set-cookie], which
    yields one pair per cookie. *)
Definition Headers : Type := list (string * string).

(** [filterHeaders(headers)]. *)
Definition filterHeaders (headers : Headers) : obj :=
  fold_left
    (fun filtered '(key, value) =>
       let lowerKey := toLowerCase key in
       if negb (includes HOP_BY_HOP_HEADERS lowerKey)
       then obj_set key (VStr value) filtered
       else filtered)
    headers [].

(** [sanitizeIncomingHeaders(incomingHeaders)]; [Object.entries] of an
    object is its property list. *)
Definition sanitizeIncomingHeaders (incomingHeaders : obj) : obj :=
  fold_left
    (fun sanitized '(key, value) =>
       let lowerKey := toLowerCase key in
       if negb (includes HOP_BY_HOP_HEADERS lowerKey)
       then obj_set key value sanitized
       else sanitized)
    incomingHeaders [].

(* ------------------------------------------------------------------ *)
(** * The server: the request and the mapping resolver *)
(* ------------------------------------------------------------------ *)

Definition Buffer : Type := list Byte.byte.

(** What the body parser left in [req.body]. *)
Inductive body_slot : Type :=
| BodyBuffer (b : Buffer)
| BodyString (s : string)
| BodyOther (v : value).

(** The inbound request as the route code sees it.  [rawBody] and
    [parsedBody] are the two fields the raw-body middleware adds. *)
Record request : Type := mkRequest {
  method : string;
  headers : obj;
  query : value;
  body : body_slot;
  rawBody : option Buffer;
  parsedBody : value
}.

(** [{ key, url }]. *)
Record resolution : Type := mkResolution { key : value; url : value }.

(** Lines 93-99: the identifier from the parsed body, when there is one. *)
Definition bodyCandidates (req : request) : result (list value) :=
  if truthy (parsedBody req) && typeof_object (parsedBody req) then
    let* extractedId := extractId (parsedBody req) in
    if truthy extractedId then Ok [extractedId] else Ok []
  else Ok [].

(** Line 102: [req.query?.id || req.query?.page_id || req.query?.ig_id]. *)
Definition queryId (req : request) : value :=
  js_or (js_or (js_get_opt (query req) "id")
               (js_get_opt (query req) "page_id"))
        (js_get_opt (query req) "ig_id").

(** Lines 103-107. *)
Definition queryCandidates (req : request) : list value :=
  match queryId req with
  | VArr xs => xs
  | v => if truthy v then [v] else []
  end.

(** Lines 91-107: the candidate list, in push order. *)
Definition candidatesOf (req : request) : result (list value) :=
  let* fromBody := bodyCandidates req in
  Ok (fromBody ++ queryCandidates req)%list.

(** [platformMap[candidate]]: the candidate is converted to a property
    key first. *)
Definition lookup (platformMap candidate : value) : result value :=
  let* k := ToString candidate in
  js_get platformMap k.

(** Lines 109-113: the loop returns at the first candidate that is truthy
    and maps to a truthy value; [None] when it runs to its end. *)
Fixpoint firstMatch (platformMap : value) (candidates : list value)
  : result (option resolution) :=
  match candidates with
  | [] => Ok None
  | candidate :: rest =>
      if truthy candidate then
        let* u := lookup platformMap candidate in
        if truthy u then Ok (Some (mkResolution candidate u))
        else firstMatch platformMap rest
      else firstMatch platformMap rest
  end.

(** Lines 109-120, for a sub-mapping and a candidate list. *)
Definition resolveCandidates (platformMap : value) (candidates : list value)
  : result resolution :=
  let* hit := firstMatch platformMap candidates in
  match hit with
  | Some r => Ok r
  | None =>
      let* dflt := js_get platformMap "default" in
      if truthy dflt then Ok (mkResolution (VStr "default") dflt)
      else Ok (mkResolution (js_or (nth 0 candidates VUndefined) VNull) VNull)
  end.

(** [resolveDownstream(req, platform)]; [mapping] is the module-level
    table the function reads. *)
Definition resolveDownstream (mapping : value) (req : request)
  (platform : string) : result resolution :=
  let* platformMap := js_get mapping platform in
  if negb (truthy platformMap) || negb (typeof_object platformMap) then
    Ok (mkResolution VNull VNull)
  else
    let* candidates := candidatesOf req in
    resolveCandidates platformMap candidates.

(* ------------------------------------------------------------------ *)
(** * Asynchronous code: trees of awaited operations *)
(* ------------------------------------------------------------------ *)

(** How the body of a response arrives once its head is in: after [dt]
    milliseconds, with an error after [dt] milliseconds, or never. *)
Inductive body_delivery : Type :=
| BodyAfter (dt : N) (payload : Buffer)
| BodyFailsAfter (dt : N) (e : error)
| BodyStalls.

(** A fetch [Response]: status line and headers, and the body still to
    be read. *)
Record Response : Type := mkResponse {
  status : nat;
  resp_headers : Headers;
  delivery : body_delivery
}.

(** The second argument of [fetch] together with the URL. *)
Record fetchOptions : Type := mkFetch {
  fo_url : string;
  fo_method : string;
  fo_headers : obj;
  fo_body : option Buffer;
  fo_duplex : option string
}.

(** A program is a finite tree: it returns, throws, arms or clears the
    abort timer ([setTimeout(() => controller.abort(), ms)],
    [clearTimeout]), or awaits [fetch(url, options)] or
    [response.arrayBuffer()] and goes on with how the promise settled. *)
Inductive prog (A : Type) : Type :=
| Ret (a : A)
| Throw (e : error)
| SetTimeout (ms : N) (k : prog A)
| ClearTimeout (k : prog A)
| Fetch (rq : fetchOptions) (k : result Response -> prog A)
| ArrayBuffer (r : Response) (k : result Buffer -> prog A).
Arguments Ret {A} a.
Arguments Throw {A} e.
Arguments SetTimeout {A} ms k.
Arguments ClearTimeout {A} k.
Arguments Fetch {A} rq k.
Arguments ArrayBuffer {A} r k.

Fixpoint pbind {A B : Type} (p : prog A) (f : A -> prog B) : prog B :=
  match p with
  | Ret a => f a
  | Throw e => Throw e
  | SetTimeout ms k => SetTimeout ms (pbind k f)
  | ClearTimeout k => ClearTimeout (pbind k f)
  | Fetch rq k => Fetch rq (fun s => pbind (k s) f)
  | ArrayBuffer r k => ArrayBuffer r (fun s => pbind (k s) f)
  end.

(** [try { p } catch (error) { h error }]. *)
Fixpoint try_catch {A : Type} (p : prog A) (h : error -> prog A) : prog A :=
  match p with
  | Ret a => Ret a
  | Throw e => h e
  | SetTimeout ms k => SetTimeout ms (try_catch k h)
  | ClearTimeout k => ClearTimeout (try_catch k h)
  | Fetch rq k => Fetch rq (fun s => try_catch (k s) h)
  | ArrayBuffer r k => ArrayBuffer r (fun s => try_catch (k s) h)
  end.

(** Synchronous code inside an async function. *)
Definition lift {A : Type} (c : result A) : prog A :=
  match c with Ok a => Ret a | Raise e => Throw e end.

(** [await p]: a rejection is thrown at the await. *)
Definition settle {A : Type} (s : result A) : prog A := lift s.
Definition await_fetch (rq : fetchOptions) : prog Response := Fetch rq settle.
Definition await_arrayBuffer (r : Response) : prog Buffer :=
  ArrayBuffer r settle.

Notation "'do' x '<-' c ';' k" := (pbind c (fun x => k))
  (at level 10, x name, c at level 100, k at level 200).

(* ------------------------------------------------------------------ *)
(** * The forwarder: [forwardRequest] *)
(* ------------------------------------------------------------------ *)

(** What [forwardRequest] resolves to. *)
Record forwarded : Type := mkForwarded {
  fw_status : nat;
  fw_body : Buffer;
  fw_headers : obj
}.

Definition timeoutMessage (timeoutMs : N) : string :=
  "Request timeout after " ++ N_to_string timeoutMs ++ "ms".

(** Lines 85-107: the options handed to [fetch]. *)
Definition buildFetchOptions (downstreamUrl : string)
  (rawBody : option Buffer) (incomingHeaders : obj) (relayId : value)
  (method : string) : fetchOptions :=
  let sanitizedHeaders := sanitizeIncomingHeaders incomingHeaders in
  let sanitizedHeaders :=
    if truthy relayId then obj_set "x-relay-key" relayId sanitizedHeaders
    else sanitizedHeaders in
  let upperMethod := toUpperCase method in
  let shouldIncludeBody := negb (includes ["GET"; "HEAD"] upperMethod) in
  if shouldIncludeBody then
    mkFetch downstreamUrl upperMethod sanitizedHeaders
      (Some match rawBody with Some b => b | None => [] end)
      (Some "half")
  else
    mkFetch downstreamUrl upperMethod sanitizedHeaders None None.

Definition forwardRequest (downstreamUrl : string) (rawBody : option Buffer)
  (incomingHeaders : obj) (relayId : value) (timeoutMs : N)
  (method : string) : prog forwarded :=
  let fetchOptions :=
    buildFetchOptions downstreamUrl rawBody incomingHeaders relayId method in
  SetTimeout timeoutMs
    (try_catch
       (do response <- await_fetch fetchOptions;
        ClearTimeout
          (do body <- await_arrayBuffer response;
           let filteredHeaders := filterHeaders (resp_headers response) in
           Ret (mkForwarded (status response) body filteredHeaders)))
       (fun error =>
          ClearTimeout
            (if String.eqb (err_name error) "AbortError"
             then Throw (mkError "Error" (timeoutMessage timeoutMs))
             else Throw error))).

(* ------------------------------------------------------------------ *)
(** * Running a program *)
(* ------------------------------------------------------------------ *)

(** ** Against arbitrary settlements

    [run_with w p] runs [p] when every awaited promise settles the way
    [w] says, and records the requests handed to [fetch].  A timer abort
    is one of the ways an await can settle (a rejection named
    [AbortError]). *)
Record settlements : Type := mkSettlements {
  on_fetch : fetchOptions -> result Response;
  on_arrayBuffer : Response -> result Buffer
}.

Fixpoint run_with {A : Type} (w : settlements) (p : prog A)
  : result A * list fetchOptions :=
  match p with
  | Ret a => (Ok a, [])
  | Throw e => (Raise e, [])
  | SetTimeout _ k => run_with w k
  | ClearTimeout k => run_with w k
  | Fetch rq k =>
      let '(r, sent) := run_with w (k (on_fetch w rq)) in (r, rq :: sent)
  | ArrayBuffer r k => run_with w (k (on_arrayBuffer w r))
  end.

(** ** Against a destination, on a clock

    Time is in milliseconds.  The destination answers a request with a
    response head after some delay, fails after some delay, or stays
    silent; the body of a response has its own delay.  While the abort
    timer is armed, an await that has not settled when the timer is due
    is rejected with [AbortError] at that moment.  The delay is a
    non-negative whole number of milliseconds. *)
Inductive exchange : Type :=
| RespondsAfter (dt : N) (r : Response)
| FailsAfter (dt : N) (e : error)
| Silent.

Definition destination : Type := fetchOptions -> exchange.

(** The delay [setTimeout(f, ms)] waits: a delay below 1 or above
    2^31 - 1 is replaced by 1. *)
Definition timerDelay (ms : N) : N :=
  if ((1 <=? ms) && (ms <=? 2147483647))%N then ms else 1%N.

Inductive outcome (A : Type) : Type :=
| SettledAt (t : N) (r : result A)
| Pending.
Arguments SettledAt {A} t r.
Arguments Pending {A}.

Definition AbortError : error :=
  mkError "AbortError" "This operation was aborted".

(** An operation started at [now] that would settle after [dt] with [s]
    ([None]: it never settles), raced against the timer.  The result is
    the time the await resumes, what is left of the timer, and the
    settlement. *)
Definition race {X : Type} (now : N) (timer : option N)
  (op : option (N * result X)) : option (N * option N * result X) :=
  match op, timer with
  | Some (dt, s), Some due =>
      if (due <=? now + dt)%N
      then Some (N.max now due, None, Raise AbortError)
      else Some (now + dt, timer, s)%N
  | Some (dt, s), None => Some (now + dt, None, s)%N
  | None, Some due => Some (N.max now due, None, Raise AbortError)
  | None, None => None
  end.

Definition fetch_op (d : destination) (rq : fetchOptions)
  : option (N * result Response) :=
  match d rq with
  | RespondsAfter dt r => Some (dt, Ok r)
  | FailsAfter dt e => Some (dt, Raise e)
  | Silent => None
  end.

Definition body_op (r : Response) : option (N * result Buffer) :=
  match delivery r with
  | BodyAfter dt payload => Some (dt, Ok payload)
  | BodyFailsAfter dt e => Some (dt, Raise e)
  | BodyStalls => None
  end.

Fixpoint run_at {A : Type} (d : destination) (p : prog A) (now : N)
  (timer : option N) : outcome A :=
  match p with
  | Ret a => SettledAt now (Ok a)
  | Throw e => SettledAt now (Raise e)
  | SetTimeout ms k => run_at d k now (Some (now + timerDelay ms)%N)
  | ClearTimeout k => run_at d k now None
  | Fetch rq k =>
      match race now timer (fetch_op d rq) with
      | Some (now', timer', s) => run_at d (k s) now' timer'
      | None => Pending
      end
  | ArrayBuffer r k =>
      match race now timer (body_op r) with
      | Some (now', timer', s) => run_at d (k s) now' timer'
      | None => Pending
      end
  end.

(* ------------------------------------------------------------------ *)
(** * The server: middleware, query forwarding, route handler *)
(* ------------------------------------------------------------------ *)

(** What the handler writes to [res]. *)
Inductive reply : Type :=
| JsonReply (code : nat) (payload : value)
    (* res.status(code).json(payload) *)
| Mirrored (code : nat) (setHeaders : obj) (sent : Buffer).
    (* res.status(code); res.setHeader(k, v) ...; res.send(sent) *)

Definition errorBody (message : string) : value :=
  VObj [("error", VStr message)].

Definition notFoundMessage (k : string) : string :=
  "No downstream URL mapped for key: " ++ k.

Definition badGatewayMessage : string :=
  "Failed to forward webhook to downstream server".

(** [Object.entries(v)] for a value that is not [null] or [undefined]. *)
Definition Object_entries (v : value) : result (list (string * value)) :=
  match v with
  | VObj props => Ok props
  | VArr xs =>
      Ok (combine (map nat_to_string (seq 0 (List.length xs))) xs)
  | VStr s =>
      Ok (combine (map nat_to_string (seq 0 (String.length s)))
            (map (fun c => VStr (String c EmptyString)) (list_ascii_of_string s)))
  | VUndefined | VNull =>
      Raise (TypeError "Cannot convert undefined or null to object")
  | _ => Ok []
  end.

Fixpoint foldM {A B : Type} (f : A -> B -> result A) (a : A) (l : list B)
  : result A :=
  match l with
  | [] => Ok a
  | b :: rest => let* a' := f a b in foldM f a' rest
  end.

Definition Buffer_from (s : string) : Buffer := list_byte_of_string s.

(** [contentType.includes('application/json')]. *)
Definition contentTypeIncludes (contentType : value) (needle : string)
  : result bool :=
  match contentType with
  | VStr s => Ok (str_includes needle s)
  | VArr xs =>
      Ok (existsb (fun x => match x with
                            | VStr s => String.eqb s needle
                            | _ => false
                            end) xs)
  | _ => Raise (TypeError "contentType.includes is not a function")
  end.

(** [limit: '10mb']: the body parser reads the unit as 1024 * 1024 bytes. *)
Definition RAW_BODY_LIMIT : N := 10 * 1024 * 1024.

Section Server.

(** The runtime functions the server calls and this development leaves
    abstract. *)
Variable JSON_parse : string -> result value.
Variable Buffer_toString : Buffer -> string.
Variable URL : Type.
Variable URL_new : string -> result URL.
Variable searchParams_append : URL -> string -> string -> URL.
Variable URL_toString : URL -> string.

(** Lines 57-81, after [express.raw] has run. *)
Definition rawBodyMiddleware (req : request) : result request :=
  let rawBody :=
    match body req with
    | BodyBuffer b => b
    | BodyString s => Buffer_from s
    | BodyOther _ => []
    end in
  let* ct := js_get (VObj (headers req)) "content-type" in
  let contentType := js_or ct (VStr "") in
  let* isJson := contentTypeIncludes contentType "application/json" in
  let parsedBody :=
    if isJson && (0 <? List.length rawBody)%nat then
      match JSON_parse (Buffer_toString rawBody) with
      | Ok v => v
      | Raise _ => VNull
      end
    else VNull in
  Ok (mkRequest (method req) (headers req) (query req) (body req)
        (Some rawBody) parsedBody).

Definition appendParam (key : string) (u : URL) (v : value) : result URL :=
  let* s := ToString v in Ok (searchParams_append u key s).

(** [appendQueryParams(baseUrl, query)]. *)
Definition appendQueryParams (baseUrl : value) (query : value)
  : result string :=
  let* href := ToString baseUrl in
  let* u := URL_new href in
  let* entries := Object_entries (js_or query (VObj [])) in
  let* u' :=
    foldM (fun u '(key, value) =>
             match value with
             | VArr vs => foldM (appendParam key) u vs
             | VUndefined | VNull => Ok u
             | _ => appendParam key u value
             end)
      u entries in
  Ok (URL_toString u').

(** The handler [createWebhookHandler(platform)] returns, applied to a
    request; [mapping] and [FORWARD_TIMEOUT_MS] are the module-level
    bindings it reads. *)
Definition createWebhookHandler (mapping : value) (FORWARD_TIMEOUT_MS : N)
  (platform : string) (req : request) : prog reply :=
  try_catch
    (do r <- lift (resolveDownstream mapping req platform);
     let mappingKey := key r in
     let downstreamBaseUrl := url r in
     if negb (truthy downstreamBaseUrl) then
       do shown <- lift (ToString (js_or mappingKey (VStr "unknown")));
       Ret (JsonReply 404 (errorBody (notFoundMessage shown)))
     else
       do targetUrl <- lift (appendQueryParams downstreamBaseUrl (query req));
       do downstreamResponse <-
         forwardRequest targetUrl
           (Some match rawBody req with Some b => b | None => [] end)
           (headers req) mappingKey FORWARD_TIMEOUT_MS (method req);
       Ret (Mirrored (fw_status downstreamResponse)
              (fw_headers downstreamResponse)
              (fw_body downstreamResponse)))
    (fun error => Ret (JsonReply 502 (errorBody badGatewayMessage))).

(** ** The route: body parser, raw-body middleware, handler

    [app.use(WEBHOOK_PATHS, express.raw({ type: '*/*', limit: '10mb' }),
    middleware)] followed by [app.all(path, handler)].  [express.raw] is
    the framework's body parser: it either calls [next()] having left
    something in [req.body], or [next(err)], which ends the chain. *)
Record inbound : Type := mkInbound {
  in_method : string;
  in_headers : obj;
  in_query : value;
  in_payload : Buffer
}.

Inductive parsed : Type :=
| Next (slot : body_slot)
| NextError (e : error).

(** [express.raw({ type, limit })], with the limit in bytes. *)
Variable express_raw : string -> N -> inbound -> parsed.

Inductive routed : Type :=
| RejectedByParser (e : error)
| RejectedByMiddleware (e : error)
| Handled (p : prog reply).

Definition webhookRoute (mapping : value) (FORWARD_TIMEOUT_MS : N)
  (platform : string) (r : inbound) : routed :=
  match express_raw "*/*" RAW_BODY_LIMIT r with
  | NextError e => RejectedByParser e
  | Next slot =>
      match rawBodyMiddleware
              (mkRequest (in_method r) (in_headers r) (in_query r) slot
                 None VUndefined) with
      | Raise e => RejectedByMiddleware e
      | Ok req =>
          Handled (createWebhookHandler mapping FORWARD_TIMEOUT_MS
                     platform req)
      end
  end.

(** The requests a routed call hands to [fetch]. *)
Definition forwards (w : settlements) (rt : routed) : list fetchOptions :=
  match rt with
  | Handled p => snd (run_with w p)
  | _ => []
  end.

End Server.

(* ------------------------------------------------------------------ *)
(** * The server: loading the mapping table *)
(* ------------------------------------------------------------------ *)

(** [Object.keys(v)]. *)
Definition Object_keys (v : value) : result (list string) :=
  let* entries := Object_entries v in Ok (map fst entries).

(** How a call of [loadMapping] ends: the module-level [mapping] is the
    new table, or the process exits. *)
Inductive loaded : Type :=
| Loaded (mapping : value)
| Exit (code : nat).

(** [loadMapping()], lines 31-40.  Reading the file, parsing it and
    taking [Object.keys(mapping).length] for the log line all stand in
    the [try]; whatever is thrown there ends in [process.exit(1)]. *)
Definition loadMapping (readFileSync : string -> result string)
  (JSON_parse : string -> result value) (MAPPING_PATH : string) : loaded :=
  match (let* mappingContent := readFileSync MAPPING_PATH in
         let* mapping := JSON_parse mappingContent in
         let* logged := Object_keys mapping in
         Ok mapping) with
  | Ok mapping => Loaded mapping
  | Raise _ => Exit 1
  end.

(* ------------------------------------------------------------------ *)
(** * Reference definitions used to state the properties *)
(* ------------------------------------------------------------------ *)

(** ** Objects as [Object.entries] lists

    [before p q]: property [p] can stand before property [q] in one
    object: the keys differ, array-index keys ascend, and no other key
    stands before an array-index key.  A property list is one an object
    can have when every property stands before all that follow it. *)
Definition before (p q : string * value) : Prop :=
  fst p <> fst q
  /\ match array_index (fst p), array_index (fst q) with
     | Some a, Some b => (a < b)%N
     | None, Some _ => False
     | _, None => True
     end.

Definition obj_wf (o : obj) : Prop := StronglySorted before o.

(** The test both sanitisers apply to a header name. *)
Definition kept (name : string) : bool :=
  negb (includes HOP_BY_HOP_HEADERS (toLowerCase name)).

(** ** The candidate list as the specification words it

    Body-derived identifier first, then every value of the [id] field,
    of the [page_id] field and of the [ig_id] field. *)
Definition fieldValues (v : value) : list value :=
  match v with
  | VArr xs => xs
  | VUndefined => []
  | _ => [v]
  end.

Definition candidates_as_specified (fromBody : list value) (query : value)
  : list value :=
  (fromBody ++ fieldValues (js_get_opt query "id")
            ++ fieldValues (js_get_opt query "page_id")
            ++ fieldValues (js_get_opt query "ig_id"))%list.

(** What the loop pushes for the one field it reads. *)
Definition valuesOf (v : value) : list value :=
  match v with
  | VArr xs => xs
  | _ => if truthy v then [v] else []
  end.

(** ** The identifier extractor as the specification words it

    An object with a non-empty sequence field [entry] whose first element
    has a field [id] gives [String(id)]; anything else gives "absent". *)
Definition extractId_as_specified (body : value) : result value :=
  match body with
  | VObj props =>
      match own props "entry" with
      | Some (VArr (VObj eprops :: _)) =>
          match own eprops "id" with
          | Some X => let* s := ToString X in Ok (VStr s)
          | None => Ok VNull
          end
      | _ => Ok VNull
      end
  | _ => Ok VNull
  end.

(** ** The resolver as the specification words it

    The first candidate that exists as a key of the sub-mapping, with its
    URL; failing that the [default] entry when the sub-mapping has one;
    failing that nothing. *)
Definition resolve_as_specified (sub : obj) (candidates : list string)
  : option resolution :=
  match find (has_own sub) candidates with
  | Some c =>
      match own sub c with
      | Some u => Some (mkResolution (VStr c) u)
      | None => None
      end
  | None =>
      match own sub "default" with
      | Some u => Some (mkResolution (VStr "default") u)
      | None => None
      end
  end.

(** A candidate matches when it is truthy and the sub-mapping reads to a
    truthy value under it. *)
Definition matches (platformMap candidate : value) : bool :=
  truthy candidate
  && match lookup platformMap candidate with
     | Ok u => truthy u
     | Raise _ => false
     end.

(** A candidate the loop steps over: falsy, or read to a falsy value. *)
Definition skipped (platformMap candidate : value) : Prop :=
  truthy candidate = false
  \/ exists u, lookup platformMap candidate = Ok u /\ truthy u = false.

(** ** Matching as the specification words it

    A candidate matches exactly when the read [platformMap[candidate]]
    gives a truthy value, whatever the candidate itself is; the first
    candidate that matches is returned with the value read. *)
Definition matches_as_specified (platformMap candidate : value) : bool :=
  match lookup platformMap candidate with
  | Ok u => truthy u
  | Raise _ => false
  end.

Definition firstMatch_as_specified (platformMap : value)
  (candidates : list value) : option resolution :=
  match find (matches_as_specified platformMap) candidates with
  | Some c =>
      match lookup platformMap c with
      | Ok u => Some (mkResolution c u)
      | Raise _ => None
      end
  | None => None
  end.

(** ** Header sets

    A name the sanitisers copy into the fresh object: it passes the
    denylist test and it is not ["__proto__"], which an assignment does
    not create. *)
Definition copied (name : string) : bool :=
  kept name && negb (String.eqb name "__proto__").

Definition keptEntry (p : string * value) : bool := copied (fst p).

(** Response headers as an object would list them. *)
Definition asProperties (hs : Headers) : obj :=
  map (fun p => (fst p, VStr (snd p))) hs.

(** ** Outcomes of the forwarder and of the handler *)
Definition timeoutError (timeoutMs : N) : error :=
  mkError "Error" (timeoutMessage timeoutMs).

(** What the [catch] block of [forwardRequest] rethrows. *)
Definition rethrown (timeoutMs : N) (e : error) : error :=
  if String.eqb (err_name e) "AbortError" then timeoutError timeoutMs else e.

Definition notFound (shown : string) : reply :=
  JsonReply 404 (errorBody (notFoundMessage shown)).

Definition badGateway : reply := JsonReply 502 (errorBody badGatewayMessage).

Definition mirrored (response : Response) (payload : Buffer) : reply :=
  Mirrored (status response) (filterHeaders (resp_headers response)) payload.

(** [req.rawBody || Buffer.alloc(0)]. *)
Definition bodyOf (req : request) : Buffer :=
  match rawBody req with Some b => b | None => [] end.


(** ** What a loop of assignments leaves under a key

    The value of the last pair of [l] whose key is [k]. *)
Fixpoint lastValue (l : obj) (k : string) : option value :=
  match l with
  | [] => None
  | (k', v) :: rest =>
      match lastValue rest k with
      | Some x => Some x
      | None => if String.eqb k' k then Some v else None
      end
  end.

(** ** Query objects whose values are strings or lists of strings *)
Definition isString (v : value) : bool :=
  match v with VStr _ => true | _ => false end.

Definition plainParam (v : value) : bool :=
  match v with
  | VStr _ | VUndefined | VNull => true
  | VArr vs => forallb isString vs
  | _ => false
  end.

(** The name/value pairs such a query object stands for, in order. *)
Definition paramsOf (entries : obj) : list (string * string) :=
  flat_map
    (fun '(k, v) =>
       match v with
       | VStr s => [(k, s)]
       | VArr vs =>
           flat_map (fun x => match x with VStr s => [(k, s)] | _ => [] end)
             vs
       | _ => []
       end)
    entries.

(** ** A small runtime to run examples with

    Stand-ins for the abstract runtime functions: a JSON parser that knows
    no document, the identity decoding of bytes, and URLs that are a base
    of scheme [http:] or [https:] with a list of query pairs. *)
Definition demo_JSON_parse (s : string) : result value :=
  Raise (mkError "SyntaxError" "Unexpected token").

Definition demo_Buffer_toString (b : Buffer) : string :=
  string_of_list_byte b.

Definition demo_URL : Type := (string * list (string * string))%type.

Definition demo_URL_new (s : string) : result demo_URL :=
  if prefix "http://" s || prefix "https://" s then Ok (s, [])
  else Raise (TypeError "Invalid URL").

Definition demo_append (u : demo_URL) (k v : string) : demo_URL :=
  (fst u, (snd u ++ [(k, v)])%list).

Definition demo_URL_toString (u : demo_URL) : string :=
  match snd u with
  | [] => fst u
  | (k, v) :: rest =>
      fold_left (fun acc kv => acc ++ "&" ++ fst kv ++ "=" ++ snd kv) rest
        (fst u ++ "?" ++ k ++ "=" ++ v)
  end.

Definition demo_handler : value -> N -> string -> request -> prog reply :=
  createWebhookHandler demo_URL demo_URL_new demo_append demo_URL_toString.

Definition demo_middleware : request -> result request :=
  rawBodyMiddleware demo_JSON_parse demo_Buffer_toString.

(** A world in which every fetch is answered by [response] and every
    body read gives [payload]. *)
Definition answering (response : Response) (payload : Buffer) : settlements :=
  mkSettlements (fun _ => Ok response) (fun _ => Ok payload).

(** The table of the first end-to-end scenario. *)
Definition demo_mapping : value :=
  VObj [("messenger", VObj [("123", VStr "http://d/x")])].

(** A stand-in for the body parser [express.raw({ type: '*/*', limit })],
    after what body-parser's [raw] does: a request that names no content
    type is passed on unread, with [{}] in [req.body]; a body above the
    limit ends the chain with an error; any other body is handed over as
    a Buffer of the bytes read. *)
Definition demo_express_raw (type : string) (limit : N) (r : inbound)
  : parsed :=
  match own (in_headers r) "content-type" with
  | None => Next (BodyOther (VObj []))
  | Some _ =>
      if (limit <? N.of_nat (List.length (in_payload r)))%N
      then NextError (mkError "PayloadTooLargeError" "request entity too large")
      else Next (BodyBuffer (in_payload r))
  end.

(** A POST of two bytes that names no content type. *)
Definition unlabelled_post : inbound :=
  mkInbound "POST"
    [("host", VStr "relay.example"); ("content-length", VStr "2")]
    (VObj [("id", VStr "123")])
    [Byte.x01; Byte.x02].


(* ------------------------------------------------------------------ *)
(** * Basic facts about property reads *)
(* ------------------------------------------------------------------ *)

Lemma get_object_own (props : obj) (k : string) (v : value) :
  own props k = Some v -> get_object props k = v.
Proof. unfold get_object. now intros ->. Qed.

Lemma get_object_missing (props : obj) (k : string) :
  own props k = None ->
  includes Object_prototype k = false ->
  get_object props k = VUndefined.
Proof.
  unfold get_object, inherited. intros -> Hk. now rewrite Hk.
Qed.

Lemma get_object_inherited (props : obj) (k : string) :
  own props k = None ->
  includes Object_prototype k = true ->
  get_object props k = VBuiltin "Object.prototype" k.
Proof.
  unfold get_object, inherited. intros -> Hk. now rewrite Hk.
Qed.

Lemma first_element (e : value) (rest : list value) :
  js_get (VArr (e :: rest)) "0" = Ok e.
Proof. reflexivity. Qed.

(** No value other than an object with an own [id] reads to anything
    under ["id"]. *)
Lemma id_of_non_object (e : value) :
  match e with VNull | VUndefined | VObj _ => False | _ => True end ->
  js_get e "id" = Ok VUndefined.
Proof. destruct e; simpl; intros H; try contradiction; reflexivity. Qed.

Lemma extractId_first_entry (props : obj) (e : value) (rest : list value) :
  own props "entry" = Some (VArr (e :: rest)) ->
  extractId (VObj props) =
    let* id := js_get e "id" in
    if truthy id then let* s := ToString id in Ok (VStr s) else Ok VNull.
Proof.
  intros H. unfold extractId, js_get_opt, js_get.
  rewrite (get_object_own _ _ _ H). reflexivity.
Qed.

(* ------------------------------------------------------------------ *)
(** * Identifier Extractor *)
(* ------------------------------------------------------------------ *)

(** C2, as stated, fails: for the body [{"entry":[{"id":0}]}] the first
    entry has a field [id] and [String(0)] is ["0"], yet [extractId]
    returns [null]. *)
Lemma extractId_zero_id_not_stringified :
  extractId (VObj [("entry", VArr [VObj [("id", VNum "0")]])])
  <> extractId_as_specified (VObj [("entry", VArr [VObj [("id", VNum "0")]])]).
Proof. vm_compute. discriminate. Qed.

(** C2, amended: for a body [{"entry":[{"id": X, ...}, ...]}] whose [X]
    is truthy, [extractId] returns [String(X)]; when [X] is falsy ([0],
    [""], [false], [null]), when the first entry is an object without
    [id] or a string, number, boolean or array, when [entry] is missing or
    empty, or when there is no body, it returns [null] without throwing. *)
Theorem extractId_truthy_id_or_null :
  (forall props eprops rest X,
      own props "entry" = Some (VArr (VObj eprops :: rest)) ->
      own eprops "id" = Some X ->
      extractId (VObj props) =
        if truthy X then let* s := ToString X in Ok (VStr s) else Ok VNull)
  /\ (forall props eprops rest,
         own props "entry" = Some (VArr (VObj eprops :: rest)) ->
         own eprops "id" = None ->
         extractId (VObj props) = Ok VNull)
  /\ (forall props e rest,
         own props "entry" = Some (VArr (e :: rest)) ->
         match e with VNull | VUndefined | VObj _ => False | _ => True end ->
         extractId (VObj props) = Ok VNull)
  /\ (forall props, own props "entry" = None ->
                    extractId (VObj props) = Ok VNull)
  /\ (forall props, own props "entry" = Some (VArr []) ->
                    extractId (VObj props) = Ok VNull)
  /\ extractId VNull = Ok VNull
  /\ extractId VUndefined = Ok VNull.
Proof.
  repeat split.
  - intros props eprops rest X He Hid.
    rewrite (extractId_first_entry _ _ _ He). simpl.
    now rewrite (get_object_own _ _ _ Hid).
  - intros props eprops rest He Hid.
    rewrite (extractId_first_entry _ _ _ He). simpl.
    now rewrite (get_object_missing _ _ Hid).
  - intros props e rest He Hshape.
    rewrite (extractId_first_entry _ _ _ He).
    now rewrite (id_of_non_object _ Hshape).
  - intros props He. unfold extractId, js_get_opt, js_get.
    now rewrite (get_object_missing _ _ He).
  - intros props He. unfold extractId, js_get_opt, js_get.
    now rewrite (get_object_own _ _ _ He).
Qed.

Lemma extractId_truthy_id_or_null_witness :
  own [("entry", VArr [VObj [("id", VStr "123")]])] "entry"
    = Some (VArr [VObj [("id", VStr "123")]])
  /\ own [("id", VStr "123")] "id" = Some (VStr "123")
  /\ extractId (VObj [("entry", VArr [VObj [("id", VStr "123")]])])
     = Ok (VStr "123").
Proof.
  split; [reflexivity | split; [reflexivity |]].
  exact (proj1 extractId_truthy_id_or_null
           [("entry", VArr [VObj [("id", VStr "123")]])]
           [("id", VStr "123")] [] (VStr "123") eq_refl eq_refl).
Defined.

(* ------------------------------------------------------------------ *)
(** * Mapping Resolver: the candidate list *)
(* ------------------------------------------------------------------ *)

Lemma candidatesOf_split (req : request) (fromBody : list value) :
  bodyCandidates req = Ok fromBody ->
  candidatesOf req = Ok (fromBody ++ queryCandidates req)%list.
Proof. unfold candidatesOf. now intros ->. Qed.

Lemma queryCandidates_valuesOf (req : request) :
  queryCandidates req = valuesOf (queryId req).
Proof. unfold queryCandidates, valuesOf. now destruct (queryId req). Qed.

(** The body contributes exactly the extracted identifier. *)
Lemma bodyCandidates_extracted (req : request) (s : string) :
  truthy (parsedBody req) = true ->
  typeof_object (parsedBody req) = true ->
  extractId (parsedBody req) = Ok (VStr s) ->
  s <> "" ->
  bodyCandidates req = Ok [VStr s].
Proof.
  intros Ht Ho He Hs. unfold bodyCandidates. rewrite Ht, Ho, He. simpl.
  destruct (String.eqb_spec s ""); [contradiction | reflexivity].
Qed.

(** C1, as stated, fails: with the query [?id=a&page_id=b] and no parsed
    body the candidate list is [["a"]]; the [page_id] value is not a
    candidate. *)
Lemma candidates_skip_later_fields :
  candidatesOf
    (mkRequest "GET" []
       (VObj [("id", VStr "a"); ("page_id", VStr "b")])
       (BodyOther (VObj [])) (Some []) VNull)
  <> Ok (candidates_as_specified []
           (VObj [("id", VStr "a"); ("page_id", VStr "b")])).
Proof. vm_compute. discriminate. Qed.

(** C1, amended: the candidate list is the body-derived identifier (when
    the parsed body yields a non-empty one) followed by the values of one
    query field only, the first of [id], [page_id], [ig_id] whose value is
    truthy: all its values when it is repeated, its single value
    otherwise.  The fields after the chosen one contribute nothing. *)
Theorem candidates_body_then_first_truthy_field
  (req : request) (fromBody : list value)
  (Hbody : bodyCandidates req = Ok fromBody) :
  let id := js_get_opt (query req) "id" in
  let page_id := js_get_opt (query req) "page_id" in
  let ig_id := js_get_opt (query req) "ig_id" in
  (forall s,
      truthy (parsedBody req) = true ->
      typeof_object (parsedBody req) = true ->
      extractId (parsedBody req) = Ok (VStr s) -> s <> "" ->
      fromBody = [VStr s])
  /\ (truthy (parsedBody req) = false
      \/ extractId (parsedBody req) = Ok VNull -> fromBody = [])
  /\ (truthy id = true ->
      candidatesOf req = Ok (fromBody ++ valuesOf id)%list)
  /\ (truthy id = false -> truthy page_id = true ->
      candidatesOf req = Ok (fromBody ++ valuesOf page_id)%list)
  /\ (truthy id = false -> truthy page_id = false ->
      candidatesOf req = Ok (fromBody ++ valuesOf ig_id)%list).
Proof.
  intros id page_id ig_id.
  rewrite (candidatesOf_split _ _ Hbody), queryCandidates_valuesOf.
  unfold queryId, js_or. subst id page_id ig_id.
  repeat apply conj.
  - intros s Ht Ho He Hs.
    rewrite (bodyCandidates_extracted _ _ Ht Ho He Hs) in Hbody.
    now injection Hbody.
  - unfold bodyCandidates in Hbody. intros [Hf | He].
    + rewrite Hf in Hbody. now injection Hbody.
    + destruct (truthy (parsedBody req) && typeof_object (parsedBody req));
        [rewrite He in Hbody |]; now injection Hbody.
  - intros H. now rewrite !H.
  - intros H1 H2. now rewrite !H1, !H2.
  - intros H1 H2. now rewrite !H1, !H2.
Qed.

Lemma candidates_body_then_first_truthy_field_witness :
  candidatesOf
    (mkRequest "POST" []
       (VObj [("page_id", VArr [VStr "7"; VStr "8"]); ("ig_id", VStr "9")])
       (BodyOther (VObj [])) (Some [])
       (VObj [("entry", VArr [VObj [("id", VStr "123")]])]))
  = Ok [VStr "123"; VStr "7"; VStr "8"].
Proof.
  refine (proj1 (proj2 (proj2 (proj2
    (candidates_body_then_first_truthy_field
       (mkRequest "POST" []
          (VObj [("page_id", VArr [VStr "7"; VStr "8"]);
                 ("ig_id", VStr "9")])
          (BodyOther (VObj [])) (Some [])
          (VObj [("entry", VArr [VObj [("id", VStr "123")]])]))
       [VStr "123"] _)))) _ _); reflexivity.
Defined.

(* ------------------------------------------------------------------ *)
(** * Mapping Resolver: the lookup *)
(* ------------------------------------------------------------------ *)

Lemma firstMatch_step (pm c u : value) (rest : list value) :
  truthy c = true ->
  lookup pm c = Ok u ->
  firstMatch pm (c :: rest) =
    if truthy u then Ok (Some (mkResolution c u)) else firstMatch pm rest.
Proof. intros Hc Hl. simpl. now rewrite Hc, Hl. Qed.

Lemma firstMatch_skip (pm c : value) (rest : list value) :
  skipped pm c -> firstMatch pm (c :: rest) = firstMatch pm rest.
Proof.
  intros [Hc | [u [Hl Hu]]]; simpl.
  - now rewrite Hc.
  - destruct (truthy c); [| reflexivity]. now rewrite Hl; simpl; rewrite Hu.
Qed.

Lemma firstMatch_skip_all (pm : value) (pre rest : list value) :
  Forall (skipped pm) pre ->
  firstMatch pm (pre ++ rest) = firstMatch pm rest.
Proof.
  induction 1 as [| c pre Hc _ IH]; [reflexivity |].
  rewrite <- app_comm_cons, firstMatch_skip by assumption. exact IH.
Qed.

Lemma firstMatch_none (pm : value) (candidates : list value) :
  Forall (skipped pm) candidates -> firstMatch pm candidates = Ok None.
Proof.
  intros H. rewrite <- (app_nil_r candidates).
  now rewrite firstMatch_skip_all.
Qed.

Lemma firstMatch_first (pm c u : value) (pre post : list value) :
  Forall (skipped pm) pre ->
  truthy c = true -> lookup pm c = Ok u -> truthy u = true ->
  firstMatch pm (pre ++ c :: post) = Ok (Some (mkResolution c u)).
Proof.
  intros Hpre Hc Hl Hu.
  rewrite firstMatch_skip_all by assumption.
  now rewrite (firstMatch_step _ _ _ _ Hc Hl), Hu.
Qed.

Lemma resolveDownstream_present
  (mapping : value) (req : request) (platform : string)
  (platformMap : value) (candidates : list value) :
  js_get mapping platform = Ok platformMap ->
  truthy platformMap = true ->
  typeof_object platformMap = true ->
  candidatesOf req = Ok candidates ->
  resolveDownstream mapping req platform
  = resolveCandidates platformMap candidates.
Proof.
  intros Hp Ht Ho Hc. unfold resolveDownstream.
  now rewrite Hp; simpl; rewrite Ht, Ho, Hc.
Qed.

Lemma prototype_name_nonempty (names : list string) (k : string) :
  includes names k = true -> names = Object_prototype -> k <> "".
Proof. intros H -> ->. discriminate H. Qed.

(** On an ordinary object, a string that names no member of
    [Object.prototype] reads the own property of that name. *)
Lemma lookup_own_key (sub : obj) (k : string) :
  includes Object_prototype k = false ->
  lookup (VObj sub) (VStr k)
  = Ok match own sub k with Some u => u | None => VUndefined end.
Proof.
  intros Hk. unfold lookup, get_object, inherited; simpl.
  unfold get_object, inherited. now rewrite Hk.
Qed.

Lemma matches_own_key (sub : obj) (k : string) :
  includes Object_prototype k = false ->
  matches (VObj sub) (VStr k) = true
  <-> k <> "" /\ exists u, own sub k = Some u /\ truthy u = true.
Proof.
  intros Hk. unfold matches. rewrite (lookup_own_key _ _ Hk). simpl.
  destruct (String.eqb_spec k "") as [-> | Hne]; simpl.
  - split; [discriminate | intros [H _]; now contradiction H].
  - destruct (own sub k) as [u |]; simpl.
    + split; [intros Hu; split; [assumption | now exists u] |].
      intros [_ [u' [[= ->] Hu]]]. exact Hu.
    + split; [discriminate | intros [_ [u [[=] _]]]].
Qed.

(** C3, as stated, fails: in the table
    [{"messenger": {"a": "", "b": "http://d/b"}}] the candidate ["a"]
    exists as a key, and comes first in [?id=a&id=b], yet the resolver
    returns key ["b"]. *)
Lemma resolver_passes_over_empty_url :
  option_map Ok
    (resolve_as_specified [("a", VStr ""); ("b", VStr "http://d/b")] ["a"; "b"])
  <> Some (resolveDownstream
             (VObj [("messenger",
                     VObj [("a", VStr ""); ("b", VStr "http://d/b")])])
             (mkRequest "GET" [] (VObj [("id", VArr [VStr "a"; VStr "b"])])
                (BodyOther (VObj [])) (Some []) VNull)
             "messenger").
Proof. vm_compute. discriminate. Qed.

(** C3, amended: for a table [T] whose entry for platform [P] is an
    object (or array), the resolver returns the first candidate, in list
    order, that is truthy and under which [T[P]] reads to a truthy value,
    together with that value, whether or not a [default] entry exists;
    when every candidate is stepped over and [T[P].default] is truthy it
    returns that entry with key ["default"]; when every candidate is
    stepped over and [T[P].default] is falsy it returns no URL, with the
    first candidate (or [null]) as key; when [T[P]] is missing or not an
    object it returns no key and no URL.  For an object sub-mapping and a
    candidate string that names no member of [Object.prototype], reading
    to a truthy value means being an own key mapped to a truthy value
    (a non-empty URL). *)
Theorem resolver_first_truthy_match
  (mapping : value) (req : request) (platform : string) :
  (forall platformMap pre c post u,
      js_get mapping platform = Ok platformMap ->
      truthy platformMap = true -> typeof_object platformMap = true ->
      candidatesOf req = Ok (pre ++ c :: post)%list ->
      Forall (skipped platformMap) pre ->
      truthy c = true -> lookup platformMap c = Ok u -> truthy u = true ->
      resolveDownstream mapping req platform = Ok (mkResolution c u))
  /\ (forall platformMap candidates d,
         js_get mapping platform = Ok platformMap ->
         truthy platformMap = true -> typeof_object platformMap = true ->
         candidatesOf req = Ok candidates ->
         Forall (skipped platformMap) candidates ->
         js_get platformMap "default" = Ok d ->
         resolveDownstream mapping req platform =
           if truthy d then Ok (mkResolution (VStr "default") d)
           else Ok (mkResolution (js_or (nth 0 candidates VUndefined) VNull)
                      VNull))
  /\ (forall platformMap,
         js_get mapping platform = Ok platformMap ->
         truthy platformMap = false \/ typeof_object platformMap = false ->
         resolveDownstream mapping req platform
         = Ok (mkResolution VNull VNull))
  /\ (forall sub k,
         includes Object_prototype k = false ->
         matches (VObj sub) (VStr k) = true
         <-> k <> "" /\ exists u, own sub k = Some u /\ truthy u = true).
Proof.
  repeat apply conj.
  - intros pm pre c post u Hp Ht Ho Hc Hpre Htc Hl Hu.
    rewrite (resolveDownstream_present _ _ _ _ _ Hp Ht Ho Hc).
    unfold resolveCandidates.
    now rewrite (firstMatch_first _ _ _ _ _ Hpre Htc Hl Hu).
  - intros pm candidates d Hp Ht Ho Hc Hall Hd.
    rewrite (resolveDownstream_present _ _ _ _ _ Hp Ht Ho Hc).
    unfold resolveCandidates.
    rewrite (firstMatch_none _ _ Hall). simpl. now rewrite Hd.
  - intros pm Hp Hbad. unfold resolveDownstream. rewrite Hp. simpl.
    now destruct Hbad as [-> | ->]; rewrite ?orb_true_r.
  - exact matches_own_key.
Qed.

Lemma resolver_first_truthy_match_witness :
  resolveDownstream
    (VObj [("messenger",
            VObj [("123", VStr "http://d/x"); ("default", VStr "http://d/0")])])
    (mkRequest "GET" [] (VObj [("id", VArr [VStr "999"; VStr "123"])])
       (BodyOther (VObj [])) (Some []) VNull)
    "messenger"
  = Ok (mkResolution (VStr "123") (VStr "http://d/x")).
Proof.
  refine (proj1 (resolver_first_truthy_match
                   (VObj [("messenger",
                           VObj [("123", VStr "http://d/x");
                                 ("default", VStr "http://d/0")])])
                   (mkRequest "GET" []
                      (VObj [("id", VArr [VStr "999"; VStr "123"])])
                      (BodyOther (VObj [])) (Some []) VNull)
                   "messenger")
            (VObj [("123", VStr "http://d/x"); ("default", VStr "http://d/0")])
            [VStr "999"] (VStr "123") [] (VStr "http://d/x")
            eq_refl eq_refl eq_refl eq_refl _ eq_refl eq_refl eq_refl).
  constructor; [| constructor].
  right. exists VUndefined. split; reflexivity.
Defined.

(** C9, as stated, fails: in the table
    [{"messenger": {"": "http://d/e", "x": "http://d/x"}}] the read under
    the candidate [""], which comes first in [?id=&id=x], gives a truthy
    value, yet the resolver steps over that candidate and returns key
    ["x"]. *)
Lemma resolver_steps_over_empty_candidate :
  option_map Ok
    (firstMatch_as_specified
       (VObj [("", VStr "http://d/e"); ("x", VStr "http://d/x")])
       [VStr ""; VStr "x"])
  <> Some (resolveDownstream
             (VObj [("messenger",
                     VObj [("", VStr "http://d/e"); ("x", VStr "http://d/x")])])
             (mkRequest "GET" [] (VObj [("id", VArr [VStr ""; VStr "x"])])
                (BodyOther (VObj [])) (Some []) VNull)
             "messenger").
Proof. vm_compute. discriminate. Qed.

(** C9, amended: a candidate matches exactly when it is itself truthy
    and the property read [platformMap[candidate]] gives a truthy value.
    A falsy candidate (the empty string of [?id=]) is stepped over without
    the table being read, even when the table has an entry under it.  A
    candidate whose own entry is the empty string is stepped over, so
    that the loop goes on with the candidates after it; a candidate that
    names a member of [Object.prototype] which the sub-mapping does not
    define is a match, and the inherited built-in is returned as the
    destination URL. *)
Theorem candidate_matches_on_truthy_read
  (sub : obj) (k : string) (rest : list value) :
  (forall pm c,
      truthy c = false -> firstMatch pm (c :: rest) = firstMatch pm rest)
  /\ (forall pm c u,
      truthy c = true -> lookup pm c = Ok u ->
      firstMatch pm (c :: rest) =
        if truthy u then Ok (Some (mkResolution c u))
        else firstMatch pm rest)
  /\ (own sub k = Some (VStr "") ->
      firstMatch (VObj sub) (VStr k :: rest) = firstMatch (VObj sub) rest)
  /\ (own sub k = None -> includes Object_prototype k = true ->
      resolveCandidates (VObj sub) (VStr k :: rest)
      = Ok (mkResolution (VStr k) (VBuiltin "Object.prototype" k))).
Proof.
  repeat apply conj.
  - intros pm c Hc. simpl. now rewrite Hc.
  - intros pm c u. apply firstMatch_step.
  - intros Hown. apply firstMatch_skip. right. exists (VStr "").
    split; [| reflexivity].
    unfold lookup; simpl. now rewrite (get_object_own _ _ _ Hown).
  - intros Hown Hk. unfold resolveCandidates.
    assert (Hne : k <> "") by exact (prototype_name_nonempty _ _ Hk eq_refl).
    rewrite (firstMatch_step (VObj sub) (VStr k)
               (VBuiltin "Object.prototype" k)).
    + reflexivity.
    + simpl. now destruct (String.eqb_spec k "").
    + unfold lookup; simpl. now rewrite (get_object_inherited _ _ Hown Hk).
Qed.

Lemma candidate_matches_on_truthy_read_witness :
  resolveCandidates (VObj [("123", VStr "http://d/x")])
    [VStr "constructor"; VStr "123"]
  = Ok (mkResolution (VStr "constructor")
          (VBuiltin "Object.prototype" "constructor"))
  /\ firstMatch (VObj [("", VStr "http://d/e"); ("x", VStr "http://d/x")])
       [VStr ""; VStr "x"]
     = firstMatch (VObj [("", VStr "http://d/e"); ("x", VStr "http://d/x")])
         [VStr "x"].
Proof.
  split.
  - exact (proj2 (proj2 (proj2 (candidate_matches_on_truthy_read
                                  [("123", VStr "http://d/x")] "constructor"
                                  [VStr "123"]))) eq_refl eq_refl).
  - exact (proj1 (candidate_matches_on_truthy_read [] "" [VStr "x"])
             (VObj [("", VStr "http://d/e"); ("x", VStr "http://d/x")])
             (VStr "") eq_refl).
Defined.

(* ------------------------------------------------------------------ *)
(** * Header Sanitizer *)
(* ------------------------------------------------------------------ *)

Lemma own_not_before (o : obj) (k : string) (v : value) :
  Forall (fun p => before p (k, v)) o -> has_own o k = false.
Proof.
  unfold has_own. induction 1 as [| [k' v'] o [Hne _] _ IH]; [reflexivity |].
  simpl in *. destruct (String.eqb_spec k' k); [contradiction | exact IH].
Qed.

Lemma insert_index_at_end (o : obj) (n : N) (k : string) (v : value) :
  array_index k = Some n ->
  Forall (fun p => before p (k, v)) o ->
  obj_insert_index n k v o = (o ++ [(k, v)])%list.
Proof.
  intros Hk. induction 1 as [| [k' v'] o [_ Hord] _ IH]; [reflexivity |].
  simpl in *. rewrite Hk in Hord.
  destruct (array_index k') as [m |]; [| contradiction].
  apply N.ltb_lt in Hord. now rewrite Hord, IH.
Qed.

(** Assigning a key that can stand after all present ones appends it. *)
Lemma obj_set_at_end (o : obj) (k : string) (v : value) :
  String.eqb k "__proto__" = false ->
  Forall (fun p => before p (k, v)) o ->
  obj_set k v o = (o ++ [(k, v)])%list.
Proof.
  intros Hp H. unfold obj_set. rewrite (own_not_before _ _ _ H), Hp.
  destruct (array_index k) as [n |] eqn:Hk; [| reflexivity].
  now apply insert_index_at_end.
Qed.

Lemma has_own_append (o : obj) (k k' : string) (v : value) :
  has_own o k' = false -> String.eqb k k' = false ->
  has_own (o ++ [(k, v)])%list k' = false.
Proof.
  unfold has_own. induction o as [| [k0 v0] o IH]; simpl; intros H Hk.
  - now rewrite Hk.
  - destruct (String.eqb k0 k'); [discriminate | now apply IH].
Qed.

Lemma sorted_before_last (o : obj) (p : string * value) :
  StronglySorted before (o ++ [p])%list -> Forall (fun q => before q p) o.
Proof.
  induction o as [| q o IH]; intros H; [constructor |].
  simpl in H. apply StronglySorted_inv in H as [Hs Hq].
  constructor; [| now apply IH].
  apply Forall_app in Hq as [_ Hp]. now inversion Hp.
Qed.

Lemma sorted_prefix (a b : obj) :
  StronglySorted before (a ++ b)%list -> StronglySorted before a.
Proof.
  induction a as [| p a IH]; intros H; [constructor |].
  simpl in H. apply StronglySorted_inv in H as [Hs Hp].
  constructor; [now apply IH | now apply Forall_app in Hp as [Hp _]].
Qed.

Lemma obj_wf_filter (f : string * value -> bool) (o : obj) :
  obj_wf o -> obj_wf (filter f o).
Proof.
  unfold obj_wf. induction 1 as [| p o _ IH Hp]; [constructor |].
  simpl. destruct (f p); [| exact IH].
  constructor; [exact IH |].
  exact (incl_Forall (incl_filter f o) Hp).
Qed.

(** Copying the kept properties of a property list, one assignment at a
    time, onto [acc] appends them in order. *)
Lemma copy_kept (rest acc : obj) :
  has_own acc "__proto__" = false ->
  obj_wf (acc ++ filter keptEntry rest)%list ->
  fold_left
    (fun sanitized '(key, value) =>
       let lowerKey := toLowerCase key in
       if negb (includes HOP_BY_HOP_HEADERS lowerKey)
       then obj_set key value sanitized
       else sanitized)
    rest acc
  = (acc ++ filter keptEntry rest)%list.
Proof.
  revert acc. induction rest as [| [k v] rest IH]; intros acc Hacc Hwf.
  - simpl. now rewrite app_nil_r.
  - cbn [fold_left filter] in *.
    change (negb (includes HOP_BY_HOP_HEADERS (toLowerCase k)))
      with (kept k).
    change (keptEntry (k, v))
      with (kept k && negb (String.eqb k "__proto__")) in *.
    destruct (kept k); cbn [andb] in *; [| now apply IH].
    destruct (String.eqb k "__proto__") eqn:Hp; cbn [negb] in *.
    + apply String.eqb_eq in Hp. subst k.
      unfold obj_set. rewrite Hacc. cbn. now apply IH.
    + rewrite obj_set_at_end; [| exact Hp |].
      * rewrite IH; rewrite <- ?app_assoc;
          [reflexivity | now apply has_own_append | exact Hwf].
      * apply sorted_before_last.
        apply (sorted_prefix _ (filter keptEntry rest)).
        now rewrite <- app_assoc.
Qed.

(** On the property list of an object, [sanitizeIncomingHeaders] is the
    filter that keeps the names outside the denylist: order, spelling and
    values (strings or arrays of strings) are untouched. *)
Lemma sanitizeIncomingHeaders_filter (h : obj) :
  obj_wf h -> sanitizeIncomingHeaders h = filter keptEntry h.
Proof.
  intros Hwf. unfold sanitizeIncomingHeaders.
  rewrite copy_kept; [reflexivity | reflexivity |]. now apply obj_wf_filter.
Qed.

Lemma filter_twice {A : Type} (f : A -> bool) (l : list A) :
  filter f (filter f l) = filter f l.
Proof.
  induction l as [| a l IH]; [reflexivity |].
  simpl. destruct (f a) eqn:E; simpl; rewrite ?E, IH; reflexivity.
Qed.

Lemma sanitizeIncomingHeaders_idempotent (h : obj) :
  obj_wf h ->
  sanitizeIncomingHeaders (sanitizeIncomingHeaders h)
  = sanitizeIncomingHeaders h.
Proof.
  intros Hwf.
  rewrite (sanitizeIncomingHeaders_filter h Hwf).
  rewrite sanitizeIncomingHeaders_filter by now apply obj_wf_filter.
  apply filter_twice.
Qed.

(** No header survives whose lower-cased name is on the denylist,
    whatever its spelling. *)
Lemma sanitizeIncomingHeaders_drops (h : obj) (k : string) (v : value) :
  obj_wf h ->
  In (k, v) (sanitizeIncomingHeaders h) ->
  includes HOP_BY_HOP_HEADERS (toLowerCase k) = false.
Proof.
  intros Hwf. rewrite (sanitizeIncomingHeaders_filter h Hwf).
  intros Hin. apply filter_In in Hin as [_ Hk].
  unfold keptEntry, copied, kept in Hk. simpl in Hk.
  apply andb_prop in Hk as [Hk _]. now apply negb_true_iff in Hk.
Qed.

Lemma filterHeaders_fold (hs : Headers) (acc : obj) :
  fold_left
    (fun filtered '(key, value) =>
       let lowerKey := toLowerCase key in
       if negb (includes HOP_BY_HOP_HEADERS lowerKey)
       then obj_set key (VStr value) filtered
       else filtered)
    hs acc
  = fold_left
      (fun sanitized '(key, value) =>
         let lowerKey := toLowerCase key in
         if negb (includes HOP_BY_HOP_HEADERS lowerKey)
         then obj_set key value sanitized
         else sanitized)
      (asProperties hs) acc.
Proof.
  revert acc. induction hs as [| [k v] hs IH]; intros acc; [reflexivity |].
  simpl. apply IH.
Qed.

(** When the names a response carries are distinct, [filterHeaders]
    keeps every header outside the denylist, in order. *)
Lemma filterHeaders_filter (hs : Headers) :
  obj_wf (asProperties hs) ->
  filterHeaders hs = filter keptEntry (asProperties hs).
Proof.
  intros Hwf. unfold filterHeaders. rewrite filterHeaders_fold.
  now apply sanitizeIncomingHeaders_filter.
Qed.

(** C4 on the response side: a destination that sets two cookies has
    its [Set-Cookie] lines listed as two pairs by [headers.entries()];
    [filterHeaders] assigns both to the one property ["set-cookie"], and
    only the second value is left. *)
Theorem filterHeaders_keeps_last_set_cookie :
  filterHeaders
    [("set-cookie", "a=1"); ("set-cookie", "b=2"); ("x-custom", "foo")]
  = [("set-cookie", VStr "b=2"); ("x-custom", VStr "foo")].
Proof. reflexivity. Qed.

(* ------------------------------------------------------------------ *)
(** * Forwarder: the timeout *)
(* ------------------------------------------------------------------ *)

Lemma race_timer_first {X : Type} (now T : N)
  (op : option (N * result X)) :
  match op with Some (dt, _) => (T <= dt)%N | None => True end ->
  race now (Some (now + T)%N) op
  = Some ((now + T)%N, None, Raise AbortError).
Proof.
  destruct op as [[dt s] |]; simpl; intros H.
  - assert (E : (now + T <=? now + dt)%N = true) by (apply N.leb_le; lia).
    rewrite E. now rewrite N.max_r by lia.
  - now rewrite N.max_r by lia.
Qed.

Lemma race_operation_first {X : Type} (now T dt : N) (s : result X) :
  (dt < T)%N ->
  race now (Some (now + T)%N) (Some (dt, s))
  = Some ((now + dt)%N, Some (now + T)%N, s).
Proof.
  intros H. simpl.
  assert (E : (now + T <=? now + dt)%N = false) by (apply N.leb_gt; lia).
  now rewrite E.
Qed.

(** When the response head is not in by the deadline, the attempt is
    aborted at the deadline and reported as a timeout. *)
Lemma forwardRequest_times_out_on_late_head
  (d : destination) (downstreamUrl : string) (raw : option Buffer)
  (hs : obj) (relayId : value) (T : N) (m : string) (now : N) :
  match fetch_op d (buildFetchOptions downstreamUrl raw hs relayId m) with
  | Some (dt, _) => (timerDelay T <= dt)%N
  | None => True
  end ->
  run_at d (forwardRequest downstreamUrl raw hs relayId T m) now None
  = SettledAt (now + timerDelay T)%N (Raise (timeoutError T)).
Proof.
  intros H. unfold forwardRequest. cbn [run_at try_catch pbind await_fetch].
  now rewrite (race_timer_first _ _ _ H).
Qed.

(** A failure of the exchange before the deadline is passed on as it
    is. *)
Lemma forwardRequest_passes_on_network_failure
  (d : destination) (downstreamUrl : string) (raw : option Buffer)
  (hs : obj) (relayId : value) (T : N) (m : string) (now dt : N)
  (e : error) :
  d (buildFetchOptions downstreamUrl raw hs relayId m) = FailsAfter dt e ->
  (dt < timerDelay T)%N ->
  run_at d (forwardRequest downstreamUrl raw hs relayId T m) now None
  = SettledAt (now + dt)%N (Raise (rethrown T e)).
Proof.
  intros Hd Hlt. unfold forwardRequest.
  cbn [run_at try_catch pbind await_fetch]. unfold fetch_op. rewrite Hd.
  rewrite (race_operation_first _ _ _ _ Hlt). simpl. unfold rethrown.
  now destruct (String.eqb (err_name e) "AbortError").
Qed.

(** Once the head is in before the deadline the timer is cleared, and
    the body is awaited for as long as it takes. *)
Lemma forwardRequest_after_head
  (d : destination) (downstreamUrl : string) (raw : option Buffer)
  (hs : obj) (relayId : value) (T : N) (m : string) (now dt : N)
  (resp : Response) :
  d (buildFetchOptions downstreamUrl raw hs relayId m)
  = RespondsAfter dt resp ->
  (dt < timerDelay T)%N ->
  run_at d (forwardRequest downstreamUrl raw hs relayId T m) now None
  = match delivery resp with
    | BodyAfter dt' payload =>
        SettledAt (now + dt + dt')%N
          (Ok (mkForwarded (status resp) payload
                 (filterHeaders (resp_headers resp))))
    | BodyFailsAfter dt' e =>
        SettledAt (now + dt + dt')%N (Raise (rethrown T e))
    | BodyStalls => Pending
    end.
Proof.
  intros Hd Hlt. unfold forwardRequest.
  cbn [run_at try_catch pbind await_fetch]. unfold fetch_op. rewrite Hd.
  rewrite (race_operation_first _ _ _ _ Hlt).
  cbn [settle lift pbind try_catch run_at await_arrayBuffer].
  unfold body_op.
  destruct (delivery resp) as [dt' payload | dt' e |]; simpl;
    try reflexivity.
  unfold rethrown. now destruct (String.eqb (err_name e) "AbortError").
Qed.

(** C5 on the code: with a timeout of 5000 ms, a destination that sends
    the response head after 10 ms and the body after a further 60000 ms
    is waited for until 60010 ms and answered with success, not with a
    timeout failure; and when the body never comes the call never
    settles. *)
Theorem forwardRequest_waits_for_body_past_deadline :
  run_at
    (fun _ => RespondsAfter 10 (mkResponse 200 [] (BodyAfter 60000 [])))
    (forwardRequest "http://d/x" (Some []) [] (VStr "123") 5000 "POST")
    0 None
  = SettledAt 60010 (Ok (mkForwarded 200 [] []))
  /\ run_at
       (fun _ => RespondsAfter 10 (mkResponse 200 [] BodyStalls))
       (forwardRequest "http://d/x" (Some []) [] (VStr "123") 5000 "POST")
       0 None
     = Pending.
Proof. split; reflexivity. Qed.

(* ------------------------------------------------------------------ *)
(** * Running programs against settlements *)
(* ------------------------------------------------------------------ *)

Lemma run_with_lift {A : Type} (w : settlements) (c : result A) :
  run_with w (lift c) = (c, []).
Proof. now destruct c. Qed.

Lemma run_with_bind {A B : Type} (w : settlements) (p : prog A)
  (f : A -> prog B) :
  run_with w (pbind p f)
  = match run_with w p with
    | (Ok a, sent) =>
        (fst (run_with w (f a)), (sent ++ snd (run_with w (f a)))%list)
    | (Raise e, sent) => (Raise e, sent)
    end.
Proof.
  induction p as [a | e | ms k IH | k IH | rq k IH | r k IH]; simpl.
  - now destruct (run_with w (f a)).
  - reflexivity.
  - exact IH.
  - exact IH.
  - rewrite IH. destruct (run_with w (k (on_fetch w rq))) as [[a | e] sent];
      reflexivity.
  - apply IH.
Qed.

Lemma run_with_try {A : Type} (w : settlements) (p : prog A)
  (h : error -> prog A) :
  run_with w (try_catch p h)
  = match run_with w p with
    | (Ok a, sent) => (Ok a, sent)
    | (Raise e, sent) =>
        (fst (run_with w (h e)), (sent ++ snd (run_with w (h e)))%list)
    end.
Proof.
  induction p as [a | e | ms k IH | k IH | rq k IH | r k IH]; simpl.
  - reflexivity.
  - now destruct (run_with w (h e)).
  - exact IH.
  - exact IH.
  - rewrite IH. destruct (run_with w (k (on_fetch w rq))) as [[a | e] sent];
      reflexivity.
  - apply IH.
Qed.

(** [forwardRequest] makes one call to [fetch], and its result follows
    how the two awaits settle. *)
Lemma forwardRequest_run (w : settlements) (downstreamUrl : string)
  (raw : option Buffer) (hs : obj) (relayId : value) (T : N) (m : string) :
  let rq := buildFetchOptions downstreamUrl raw hs relayId m in
  run_with w (forwardRequest downstreamUrl raw hs relayId T m)
  = (match on_fetch w rq with
     | Raise e => Raise (rethrown T e)
     | Ok response =>
         match on_arrayBuffer w response with
         | Raise e => Raise (rethrown T e)
         | Ok payload =>
             Ok (mkForwarded (status response) payload
                   (filterHeaders (resp_headers response)))
         end
     end, [rq]).
Proof.
  intros rq. unfold forwardRequest. fold rq.
  cbn [run_with try_catch pbind await_fetch].
  destruct (on_fetch w rq) as [response | e]; simpl.
  - destruct (on_arrayBuffer w response) as [payload | e]; simpl;
      [reflexivity |].
    unfold rethrown. now destruct (String.eqb (err_name e) "AbortError").
  - unfold rethrown. now destruct (String.eqb (err_name e) "AbortError").
Qed.

(* ------------------------------------------------------------------ *)
(** * Relay Handler *)
(* ------------------------------------------------------------------ *)

Section RelayHandler.

Context (JSON_parse : string -> result value).
Context (Buffer_toString : Buffer -> string).
Context (URL : Type) (URL_new : string -> result URL).
Context (searchParams_append : URL -> string -> string -> URL).
Context (URL_toString : URL -> string).

Let appendQuery :=
  appendQueryParams URL URL_new searchParams_append URL_toString.
Let handler :=
  createWebhookHandler URL URL_new searchParams_append URL_toString.
Let middleware := rawBodyMiddleware JSON_parse Buffer_toString.

(** The handler, path by path. *)
Lemma handler_run (w : settlements) (mapping : value) (T : N)
  (platform : string) (req : request) :
  run_with w (handler mapping T platform req)
  = match resolveDownstream mapping req platform with
    | Raise _ => (Ok badGateway, [])
    | Ok r =>
        if negb (truthy (url r)) then
          match ToString (js_or (key r) (VStr "unknown")) with
          | Ok shown => (Ok (notFound shown), [])
          | Raise _ => (Ok badGateway, [])
          end
        else
          match appendQuery (url r) (query req) with
          | Raise _ => (Ok badGateway, [])
          | Ok targetUrl =>
              let rq := buildFetchOptions targetUrl (Some (bodyOf req))
                          (headers req) (key r) (method req) in
              (match on_fetch w rq with
               | Raise _ => Ok badGateway
               | Ok response =>
                   match on_arrayBuffer w response with
                   | Raise _ => Ok badGateway
                   | Ok payload => Ok (mirrored response payload)
                   end
               end, [rq])
          end
    end.
Proof.
  unfold handler, createWebhookHandler.
  rewrite run_with_try, run_with_bind, run_with_lift.
  destruct (resolveDownstream mapping req platform) as [r | e];
    [| reflexivity].
  destruct (negb (truthy (url r))).
  - rewrite run_with_bind, run_with_lift.
    now destruct (ToString (js_or (key r) (VStr "unknown"))).
  - rewrite run_with_bind, run_with_lift. fold appendQuery.
    destruct (appendQuery (url r) (query req)) as [targetUrl | e];
      [| reflexivity].
    rewrite run_with_bind, forwardRequest_run. fold (bodyOf req).
    destruct (on_fetch w _) as [response | e]; [| reflexivity].
    now destruct (on_arrayBuffer w response).
Qed.





Context (express_raw : string -> N -> inbound -> parsed).



End RelayHandler.

(* ------------------------------------------------------------------ *)
(** * The theorems on concrete requests *)
(* ------------------------------------------------------------------ *)





(** What is sent for the unlabelled POST: one request, with an empty
    body. *)
Example unlabelled_post_is_sent_without_bytes :
  map fo_body
    (forwards (answering (mkResponse 200 [] (BodyAfter 1 [])) [])
       (webhookRoute demo_JSON_parse demo_Buffer_toString demo_URL
          demo_URL_new demo_append demo_URL_toString demo_express_raw
          demo_mapping 5000 "messenger" unlabelled_post))
  = [Some []].
Proof. reflexivity. Qed.

(** The request the relay sends for the POST of the first scenario:
    the mapped URL with the query appended, the caller's headers without
    [host], the routing key, and the received bytes. *)
Example forwarded_request_of_post :
  snd (run_with (answering (mkResponse 200 [] (BodyAfter 1 [])) [])
         (demo_handler demo_mapping 5000 "messenger"
            (mkRequest "POST"
               [("content-type", VStr "application/octet-stream");
                ("host", VStr "relay.example");
                ("x-hub-signature-256", VStr "sha256=0")]
               (VObj [("id", VStr "123")])
               (BodyBuffer [Byte.x00; Byte.xff; Byte.x7b])
               (Some [Byte.x00; Byte.xff; Byte.x7b]) VNull)))
  = [mkFetch "http://d/x?id=123" "POST"
       [("content-type", VStr "application/octet-stream");
        ("x-hub-signature-256", VStr "sha256=0");
        ("x-relay-key", VStr "123")]
       (Some [Byte.x00; Byte.xff; Byte.x7b]) (Some "half")].
Proof. reflexivity. Qed.

(** Scenario 4: a GET with [?id=123&test=1] is sent on without a body. *)
Example forwarded_request_of_get :
  snd (run_with (answering (mkResponse 200 [] (BodyAfter 1 [])) [])
         (demo_handler demo_mapping 5000 "messenger"
            (mkRequest "GET" []
               (VObj [("id", VStr "123"); ("test", VStr "1")])
               (BodyOther (VObj [])) (Some []) VNull)))
  = [mkFetch "http://d/x?id=123&test=1" "GET"
       [("x-relay-key", VStr "123")] None None].
Proof. reflexivity. Qed.

(** Scenario 2: an empty sub-mapping gives 404, naming the key. *)
Example unmapped_identifier_is_404 :
  fst (run_with (answering (mkResponse 200 [] (BodyAfter 1 [])) [])
         (demo_handler (VObj [("messenger", VObj [])]) 5000 "messenger"
            (mkRequest "POST" [] (VObj [])
               (BodyOther (VObj [])) (Some [])
               (VObj [("entry", VArr [VObj [("id", VStr "42")]])]))))
  = Ok (JsonReply 404
          (VObj [("error", VStr "No downstream URL mapped for key: 42")])).
Proof. reflexivity. Qed.

(** A first entry that is [null] makes [extractId] throw; the handler's
    [catch] turns that into 502. *)
Example null_entry_is_502 :
  extractId (VObj [("entry", VArr [VNull])])
  = Raise (TypeError "Cannot read properties of null (reading 'id')")
  /\ fst (run_with (answering (mkResponse 200 [] (BodyAfter 1 [])) [])
            (demo_handler demo_mapping 5000 "messenger"
               (mkRequest "POST" [] (VObj [])
                  (BodyOther (VObj [])) (Some [])
                  (VObj [("entry", VArr [VNull])]))))
     = Ok badGateway.
Proof. split; reflexivity. Qed.

(** A request-header object keeps its repeated [set-cookie] values. *)
Example request_headers_keep_arrays :
  sanitizeIncomingHeaders
    [("Host", VStr "relay.example"); ("Content-Length", VStr "42");
     ("set-cookie", VArr [VStr "a=1"; VStr "b=2"]); ("X-Custom", VStr "foo")]
  = [("set-cookie", VArr [VStr "a=1"; VStr "b=2"]); ("X-Custom", VStr "foo")].
Proof. reflexivity. Qed.

(* ------------------------------------------------------------------ *)
(** * Further properties: assignments to an object *)
(* ------------------------------------------------------------------ *)

Lemma has_own_false_iff (o : obj) (k : string) :
  has_own o k = false <-> ~ In k (map fst o).
Proof.
  unfold has_own. induction o as [| [k' v'] o IH]; simpl.
  - split; [intros _ [] | reflexivity].
  - destruct (String.eqb_spec k' k) as [-> | Hne].
    + split; [discriminate | intros H; exfalso; apply H; now left].
    + rewrite IH. split; [intros H [E | Hin]; [now apply Hne | now apply H] |].
      intros H Hin. apply H. now right.
Qed.

Lemma own_obj_update (o : obj) (k k' : string) (v : value) :
  has_own o k = true ->
  own (obj_update k v o) k' = if String.eqb k k' then Some v else own o k'.
Proof.
  unfold has_own. induction o as [| [k0 v0] o IH]; simpl; [discriminate |].
  destruct (String.eqb_spec k0 k) as [-> | Hne]; simpl.
  - intros _. now destruct (String.eqb_spec k k').
  - intros H. rewrite (IH H).
    destruct (String.eqb_spec k0 k') as [-> | Hne'];
      destruct (String.eqb_spec k k') as [-> | Hk]; try reflexivity.
    now contradiction Hne.
Qed.

Lemma own_insert_index (o : obj) (n : N) (k k' : string) (v : value) :
  has_own o k = false ->
  own (obj_insert_index n k v o) k'
  = if String.eqb k k' then Some v else own o k'.
Proof.
  unfold has_own. induction o as [| [k0 v0] o IH]; simpl; [reflexivity |].
  destruct (String.eqb_spec k0 k) as [-> | Hne]; [discriminate |].
  intros H.
  destruct (array_index k0) as [m |]; [destruct (m <? n)%N |];
    simpl; try reflexivity.
  rewrite (IH H).
  destruct (String.eqb_spec k0 k') as [-> | Hne'];
    destruct (String.eqb_spec k k') as [-> | Hk]; try reflexivity.
  now contradiction Hne.
Qed.

Lemma own_append (o : obj) (k k' : string) (v : value) :
  has_own o k = false ->
  own (o ++ [(k, v)])%list k' = if String.eqb k k' then Some v else own o k'.
Proof.
  unfold has_own. induction o as [| [k0 v0] o IH]; simpl; [reflexivity |].
  destruct (String.eqb_spec k0 k) as [-> | Hne]; [discriminate |].
  intros H. rewrite (IH H).
  destruct (String.eqb_spec k0 k') as [-> | Hne'];
    destruct (String.eqb_spec k k') as [-> | Hk]; try reflexivity.
  now contradiction Hne.
Qed.

(** Reading after [o[k] = v]. *)
Lemma own_obj_set (o : obj) (k k' : string) (v : value) :
  own (obj_set k v o) k'
  = if String.eqb k k' && (has_own o k || negb (String.eqb k "__proto__"))
    then Some v else own o k'.
Proof.
  unfold obj_set. destruct (has_own o k) eqn:H; cbn [orb].
  - rewrite andb_true_r. now apply own_obj_update.
  - destruct (String.eqb k "__proto__"); cbn [negb].
    + now rewrite andb_false_r.
    + rewrite andb_true_r.
      destruct (array_index k); [now apply own_insert_index |].
      now apply own_append.
Qed.

Lemma keys_obj_update (o : obj) (k : string) (v : value) :
  map fst (obj_update k v o) = map fst o.
Proof.
  induction o as [| [k0 v0] o IH]; simpl; [reflexivity |].
  destruct (String.eqb_spec k0 k) as [-> | Hne]; simpl; [reflexivity |].
  now rewrite IH.
Qed.

Lemma keys_insert_index (o : obj) (n : N) (k x : string) (v : value) :
  In x (map fst (obj_insert_index n k v o)) <-> x = k \/ In x (map fst o).
Proof.
  induction o as [| [k0 v0] o IH]; simpl.
  - intuition congruence.
  - destruct (array_index k0) as [m |]; [destruct (m <? n)%N |]; simpl;
      try rewrite IH; intuition congruence.
Qed.

Lemma NoDup_insert_index (o : obj) (n : N) (k : string) (v : value) :
  ~ In k (map fst o) -> NoDup (map fst o) ->
  NoDup (map fst (obj_insert_index n k v o)).
Proof.
  induction o as [| [k0 v0] o IH]; simpl; intros Hk Hnd.
  - constructor; [intros [] | constructor].
  - destruct (array_index k0) as [m |]; [destruct (m <? n)%N |]; simpl;
      try (constructor; [simpl; exact Hk | exact Hnd]).
    inversion Hnd as [| ? ? Hk0 Hnd']; subst.
    constructor.
    + rewrite keys_insert_index. intros [-> | Hin]; [| now apply Hk0].
      apply Hk. now left.
    + apply IH; [| exact Hnd']. intros Hin. apply Hk. now right.
Qed.

Lemma NoDup_snoc {A : Type} (l : list A) (a : A) :
  ~ In a l -> NoDup l -> NoDup (l ++ [a])%list.
Proof.
  induction l as [| b l IH]; simpl; intros Ha Hnd.
  - constructor; [intros [] | constructor].
  - inversion Hnd as [| ? ? Hb Hnd']; subst. constructor.
    + rewrite in_app_iff. intros [Hin | [-> | []]]; [now apply Hb |].
      apply Ha. now left.
    + apply IH; [| exact Hnd']. intros Hin. apply Ha. now right.
Qed.

(** An assignment keeps the keys of an object distinct. *)
Lemma NoDup_obj_set (o : obj) (k : string) (v : value) :
  NoDup (map fst o) -> NoDup (map fst (obj_set k v o)).
Proof.
  intros Hnd. unfold obj_set. destruct (has_own o k) eqn:H.
  - now rewrite keys_obj_update.
  - apply has_own_false_iff in H.
    destruct (String.eqb k "__proto__"); [exact Hnd |].
    destruct (array_index k); [now apply NoDup_insert_index |].
    rewrite map_app. simpl. now apply NoDup_snoc.
Qed.

(* ------------------------------------------------------------------ *)
(** * Further properties: the header sanitisers *)
(* ------------------------------------------------------------------ *)

Lemma lastValue_In (l : obj) (k : string) (v : value) :
  lastValue l k = Some v -> In (k, v) l.
Proof.
  induction l as [| [k' v'] l IH]; simpl; [discriminate |].
  destruct (lastValue l k) as [x |].
  - intros [= ->]. right. now apply IH.
  - destruct (String.eqb_spec k' k) as [-> | _]; [| discriminate].
    intros [= ->]. now left.
Qed.

Lemma lastValue_filter_kept (l : obj) (k : string) :
  lastValue (filter keptEntry l) k
  = if copied k then lastValue l k else None.
Proof.
  induction l as [| [k' v'] l IH]; simpl.
  - now destruct (copied k).
  - unfold keptEntry at 1. simpl.
    destruct (copied k') eqn:Hk'; simpl; rewrite IH.
    + destruct (copied k) eqn:Hk; [reflexivity |].
      destruct (String.eqb_spec k' k) as [-> | _]; [congruence | reflexivity].
    + destruct (copied k) eqn:Hk; [| reflexivity].
      destruct (lastValue l k); [reflexivity |].
      destruct (String.eqb_spec k' k) as [-> | _]; [congruence | reflexivity].
Qed.

Lemma own_copy_fold (rest acc : obj) (k : string) :
  has_own acc "__proto__" = false ->
  own (fold_left
         (fun sanitized '(key, value) =>
            let lowerKey := toLowerCase key in
            if negb (includes HOP_BY_HOP_HEADERS lowerKey)
            then obj_set key value sanitized
            else sanitized)
         rest acc) k
  = match lastValue (filter keptEntry rest) k with
    | Some v => Some v
    | None => own acc k
    end.
Proof.
  revert acc. induction rest as [| [k0 v0] rest IH]; intros acc Hacc;
    [reflexivity |].
  cbn [fold_left filter].
  change (negb (includes HOP_BY_HOP_HEADERS (toLowerCase k0)))
    with (kept k0).
  change (keptEntry (k0, v0))
    with (kept k0 && negb (String.eqb k0 "__proto__")).
  destruct (kept k0); rewrite ?andb_true_l, ?andb_false_l; cbv iota;
    [| now apply IH].
  assert (Hacc' : has_own (obj_set k0 v0 acc) "__proto__" = false).
  { unfold has_own at 1. rewrite own_obj_set.
    destruct (String.eqb_spec k0 "__proto__") as [-> | Hne];
      [rewrite Hacc |]; exact Hacc. }
  pose proof (IH _ Hacc') as IH'. cbv zeta in IH'. rewrite IH'. clear IH'.
  destruct (String.eqb k0 "__proto__") eqn:Hp; cbn [negb]; cbv iota.
  - apply String.eqb_eq in Hp. subst k0.
    unfold obj_set. now rewrite Hacc.
  - cbn [lastValue]. destruct (lastValue (filter keptEntry rest) k);
      [reflexivity |].
    rewrite own_obj_set, Hp. cbn [negb]. rewrite orb_true_r, andb_true_r.
    now destruct (String.eqb k0 k).
Qed.

Lemma NoDup_copy_fold (rest acc : obj) :
  NoDup (map fst acc) ->
  NoDup (map fst
           (fold_left
              (fun sanitized '(key, value) =>
                 let lowerKey := toLowerCase key in
                 if negb (includes HOP_BY_HOP_HEADERS lowerKey)
                 then obj_set key value sanitized
                 else sanitized)
              rest acc)).
Proof.
  revert acc. induction rest as [| [k0 v0] rest IH]; intros acc Hnd;
    [exact Hnd |].
  cbn [fold_left]. apply IH.
  destruct (negb (includes HOP_BY_HOP_HEADERS (toLowerCase k0)));
    [now apply NoDup_obj_set | exact Hnd].
Qed.

Lemma lower_upper_ascii (c : ascii) :
  lower_ascii (upper_ascii c) = lower_ascii c.
Proof.
  destruct c as [[] [] [] [] [] [] [] []]; reflexivity.
Qed.

Lemma lower_lower_ascii (c : ascii) :
  lower_ascii (lower_ascii c) = lower_ascii c.
Proof.
  destruct c as [[] [] [] [] [] [] [] []]; reflexivity.
Qed.

Lemma toLowerCase_toUpperCase (s : string) :
  toLowerCase (toUpperCase s) = toLowerCase s.
Proof.
  induction s as [| c s IH]; [reflexivity |].
  unfold toLowerCase, toUpperCase in *. simpl.
  now rewrite lower_upper_ascii, IH.
Qed.

Lemma toLowerCase_idempotent (s : string) :
  toLowerCase (toLowerCase s) = toLowerCase s.
Proof.
  induction s as [| c s IH]; [reflexivity |].
  unfold toLowerCase in *. simpl. now rewrite lower_lower_ascii, IH.
Qed.

Lemma filter_all {A : Type} (f : A -> bool) (l : list A) :
  Forall (fun a => f a = true) l -> filter f l = l.
Proof.
  induction 1 as [| a l Ha _ IH]; [reflexivity |].
  simpl. now rewrite Ha, IH.
Qed.

Lemma asProperties_filter (hs : Headers) :
  filter keptEntry (asProperties hs)
  = asProperties (filter (fun p => copied (fst p)) hs).
Proof.
  induction hs as [| [k v] hs IH]; [reflexivity |].
  simpl. unfold keptEntry at 1. simpl.
  destruct (copied k); simpl; now rewrite IH.
Qed.

Ltac prove_obj_wf :=
  unfold obj_wf;
  repeat (constructor; try (split; [discriminate | exact I])).

(** X1: on the property list of an object, [sanitizeIncomingHeaders]
    returns exactly the properties whose lower-cased name is outside the
    denylist (and whose name is not ["__proto__"], which the assignment
    does not create), in their order, with their spelling and their
    values; the result is again the property list of an object, and
    sanitising it a second time changes nothing. *)
Theorem request_headers_sanitised_in_place (h : obj) (Hwf : obj_wf h) :
  sanitizeIncomingHeaders h = filter keptEntry h
  /\ (forall k v,
         In (k, v) (sanitizeIncomingHeaders h)
         <-> In (k, v) h
             /\ includes HOP_BY_HOP_HEADERS (toLowerCase k) = false
             /\ k <> "__proto__")
  /\ obj_wf (sanitizeIncomingHeaders h)
  /\ sanitizeIncomingHeaders (sanitizeIncomingHeaders h)
     = sanitizeIncomingHeaders h.
Proof.
  rewrite (sanitizeIncomingHeaders_filter h Hwf).
  repeat apply conj.
  - reflexivity.
  - intros k v. rewrite filter_In. unfold keptEntry, copied, kept. simpl.
    rewrite andb_true_iff, !negb_true_iff.
    destruct (String.eqb_spec k "__proto__"); intuition congruence.
  - now apply obj_wf_filter.
  - rewrite sanitizeIncomingHeaders_filter by now apply obj_wf_filter.
    apply filter_twice.
Qed.

Lemma request_headers_sanitised_in_place_witness :
  sanitizeIncomingHeaders
    [("host", VStr "relay.example"); ("content-type", VStr "text/plain");
     ("Connection", VStr "close"); ("x-hub-signature", VStr "sha1=0")]
  = [("content-type", VStr "text/plain"); ("x-hub-signature", VStr "sha1=0")].
Proof.
  refine (proj1 (request_headers_sanitised_in_place
    [("host", VStr "relay.example"); ("content-type", VStr "text/plain");
     ("Connection", VStr "close"); ("x-hub-signature", VStr "sha1=0")] _)).
  prove_obj_wf.
Defined.

(** X2: whether a header name is dropped does not depend on the case
    it is written in: a name, its upper-case and its lower-case spelling
    are all kept or all dropped. *)
Theorem denylist_ignores_case (name : string) :
  kept (toUpperCase name) = kept name
  /\ kept (toLowerCase name) = kept name.
Proof.
  unfold kept. now rewrite toLowerCase_toUpperCase, toLowerCase_idempotent.
Qed.

(** X3: for any sequence of response header pairs, repeated names or
    not, the object [filterHeaders] builds has distinct keys; under a name
    on the denylist (in any spelling) and under ["__proto__"] it has
    nothing, and under any other name it has the value of the last pair
    with that name. *)
Theorem filterHeaders_last_value_per_name (hs : Headers) :
  NoDup (map fst (filterHeaders hs))
  /\ (forall k,
         own (filterHeaders hs) k
         = if kept k && negb (String.eqb k "__proto__")
           then lastValue (asProperties hs) k else None)
  /\ own (filterHeaders hs) "__proto__" = None.
Proof.
  assert (Hk : forall k,
             own (filterHeaders hs) k
             = if kept k && negb (String.eqb k "__proto__")
               then lastValue (asProperties hs) k else None).
  { intros k. unfold filterHeaders. rewrite filterHeaders_fold.
    rewrite own_copy_fold by reflexivity. rewrite lastValue_filter_kept.
    fold (copied k).
    now destruct (copied k); [destruct (lastValue (asProperties hs) k) |]. }
  repeat apply conj.
  - unfold filterHeaders. rewrite filterHeaders_fold.
    apply NoDup_copy_fold. constructor.
  - exact Hk.
  - now rewrite Hk.
Qed.

(** X4: when the names of the response header pairs are distinct (array
    indices, if any, first and ascending), [filterHeaders] keeps every
    pair whose name is outside the denylist and is not ["__proto__"], in
    order, and nothing else. *)
Theorem filterHeaders_keeps_order (hs : Headers)
  (Hwf : obj_wf (asProperties hs)) :
  filterHeaders hs
  = asProperties
      (filter (fun p => kept (fst p) && negb (String.eqb (fst p) "__proto__"))
         hs).
Proof.
  rewrite (filterHeaders_filter hs Hwf). apply asProperties_filter.
Qed.

Lemma filterHeaders_keeps_order_witness :
  filterHeaders
    [("__proto__", "x"); ("connection", "keep-alive");
     ("content-length", "42"); ("x-custom", "foo")]
  = [("x-custom", VStr "foo")].
Proof.
  refine (filterHeaders_keeps_order
    [("__proto__", "x"); ("connection", "keep-alive");
     ("content-length", "42"); ("x-custom", "foo")] _).
  prove_obj_wf.
Defined.

(* ------------------------------------------------------------------ *)
(** * Further properties: extractor and resolver *)
(* ------------------------------------------------------------------ *)

(** [extractId] gives [null] or a string. *)
Lemma extractId_null_or_string (body v : value) :
  extractId body = Ok v -> v = VNull \/ exists s, v = VStr s.
Proof.
  unfold extractId.
  destruct (truthy (js_get_opt body "entry") && isArray (js_get_opt body "entry")
            && (0 <? array_length (js_get_opt body "entry"))%nat);
    [| intros [= <-]; now left].
  destruct (js_get (js_get_opt body "entry") "0") as [e |]; [| discriminate].
  cbn [rbind]. destruct (js_get e "id") as [id |]; [| discriminate].
  cbn [rbind]. destruct (truthy id); [| intros [= <-]; now left].
  destruct (ToString id) as [s |]; [| discriminate].
  intros [= <-]. right. now exists s.
Qed.

(** X5: [extractId] looks at the first entry and at its [id] only: two
    bodies whose [entry] arrays start with objects that have the same
    [id] (or both none) give the same result, whatever else the first
    entry, the later entries and the rest of the body hold. *)
Theorem extractId_reads_first_entry_id_only
  (props props' eprops eprops' : obj) (rest rest' : list value) :
  own props "entry" = Some (VArr (VObj eprops :: rest)) ->
  own props' "entry" = Some (VArr (VObj eprops' :: rest')) ->
  own eprops "id" = own eprops' "id" ->
  extractId (VObj props) = extractId (VObj props').
Proof.
  intros H H' Hid.
  rewrite (extractId_first_entry _ _ _ H), (extractId_first_entry _ _ _ H').
  unfold js_get, get_object. now rewrite Hid.
Qed.

Lemma extractId_reads_first_entry_id_only_witness :
  extractId
    (VObj [("object", VStr "page");
           ("entry", VArr [VObj [("id", VStr "1"); ("time", VNum "5")];
                           VObj [("id", VStr "2")]])])
  = extractId (VObj [("entry", VArr [VObj [("id", VStr "1")]])]).
Proof.
  exact (extractId_reads_first_entry_id_only
           [("object", VStr "page");
            ("entry", VArr [VObj [("id", VStr "1"); ("time", VNum "5")];
                            VObj [("id", VStr "2")]])]
           [("entry", VArr [VObj [("id", VStr "1")]])]
           [("id", VStr "1"); ("time", VNum "5")] [("id", VStr "1")]
           [VObj [("id", VStr "2")]] []
           eq_refl eq_refl eq_refl).
Defined.

Lemma firstMatch_some (pm : value) (candidates : list value)
  (r : resolution) :
  firstMatch pm candidates = Ok (Some r) ->
  truthy (key r) = true /\ truthy (url r) = true
  /\ In (key r) candidates /\ lookup pm (key r) = Ok (url r).
Proof.
  induction candidates as [| c rest IH]; simpl; [discriminate |].
  destruct (truthy c) eqn:Hc.
  - destruct (lookup pm c) as [u |] eqn:Hl; [| discriminate].
    cbn [rbind]. destruct (truthy u) eqn:Hu.
    + intros [= <-]. simpl. repeat split; auto.
    + intros H. destruct (IH H) as (? & ? & ? & ?). repeat split; auto.
  - intros H. destruct (IH H) as (? & ? & ? & ?). repeat split; auto.
Qed.

(** X6: whatever [resolveDownstream] returns is of one of two kinds.
    Either it carries a truthy URL, and then its key is truthy too and is
    ["default"] or one of the request's candidates under which the
    platform's sub-mapping reads to that URL; or its URL is [null]. *)
Theorem resolution_has_url_with_its_key_or_null
  (mapping : value) (req : request) (platform : string) (r : resolution) :
  resolveDownstream mapping req platform = Ok r ->
  (truthy (url r) = true ->
   truthy (key r) = true
   /\ exists platformMap,
        js_get mapping platform = Ok platformMap
        /\ ((key r = VStr "default"
             /\ js_get platformMap "default" = Ok (url r))
            \/ (exists candidates,
                   candidatesOf req = Ok candidates
                   /\ In (key r) candidates
                   /\ lookup platformMap (key r) = Ok (url r))))
  /\ (truthy (url r) = false -> url r = VNull).
Proof.
  unfold resolveDownstream.
  destruct (js_get mapping platform) as [pm |] eqn:Hpm; [| discriminate].
  cbn [rbind].
  destruct (negb (truthy pm) || negb (typeof_object pm)).
  { intros [= <-]. split; [discriminate | reflexivity]. }
  destruct (candidatesOf req) as [cs |] eqn:Hcs; [| discriminate].
  cbn [rbind]. unfold resolveCandidates.
  destruct (firstMatch pm cs) as [[hit |] |] eqn:Hfm; [| | discriminate];
    cbn [rbind].
  - intros [= <-]. destruct (firstMatch_some _ _ _ Hfm) as (Hk & Hu & Hin & Hl).
    split; [| congruence].
    intros _. split; [exact Hk |]. exists pm. split; [reflexivity |].
    right. now exists cs.
  - destruct (js_get pm "default") as [d |] eqn:Hd; [| discriminate].
    cbn [rbind]. destruct (truthy d) eqn:Htd; intros [= <-]; simpl.
    + split; [| congruence]. intros _. split; [reflexivity |].
      exists pm. split; [reflexivity |]. now left.
    + split; [discriminate | reflexivity].
Qed.

Lemma resolution_has_url_with_its_key_or_null_witness :
  truthy (VStr "123") = true
  /\ exists platformMap,
       js_get (VObj [("messenger", VObj [("123", VStr "http://d/x")])])
         "messenger" = Ok platformMap
       /\ ((VStr "123" = VStr "default"
            /\ js_get platformMap "default" = Ok (VStr "http://d/x"))
           \/ (exists candidates,
                  candidatesOf
                    (mkRequest "GET" [] (VObj [("id", VStr "123")])
                       (BodyOther (VObj [])) (Some []) VNull)
                  = Ok candidates
                  /\ In (VStr "123") candidates
                  /\ lookup platformMap (VStr "123")
                     = Ok (VStr "http://d/x"))).
Proof.
  exact (proj1
    (resolution_has_url_with_its_key_or_null
       (VObj [("messenger", VObj [("123", VStr "http://d/x")])])
       (mkRequest "GET" [] (VObj [("id", VStr "123")])
          (BodyOther (VObj [])) (Some []) VNull)
       "messenger" (mkResolution (VStr "123") (VStr "http://d/x"))
       eq_refl) eq_refl).
Defined.

Lemma resolveDownstream_key_truthy
  (mapping : value) (req : request) (platform : string) (r : resolution) :
  resolveDownstream mapping req platform = Ok r ->
  truthy (url r) = true -> truthy (key r) = true.
Proof.
  unfold resolveDownstream.
  destruct (js_get mapping platform) as [pm |]; [| discriminate].
  cbn [rbind].
  destruct (negb (truthy pm) || negb (typeof_object pm));
    [intros [= <-]; discriminate |].
  destruct (candidatesOf req) as [cs |]; [| discriminate].
  cbn [rbind]. unfold resolveCandidates.
  destruct (firstMatch pm cs) as [[hit |] |] eqn:Hfm; [| | discriminate];
    cbn [rbind].
  - intros [= <-] _. now destruct (firstMatch_some _ _ _ Hfm).
  - destruct (js_get pm "default") as [d |]; [| discriminate].
    cbn [rbind]. destruct (truthy d); intros [= <-]; simpl;
      [reflexivity | discriminate].
Qed.

Lemma js_get_truthy (v : value) (k : string) :
  truthy v = true -> exists x, js_get v k = Ok x.
Proof. destruct v; simpl; try discriminate; intros _; eexists; reflexivity. Qed.

Lemma firstMatch_strings (pm : value) (candidates : list value) :
  truthy pm = true ->
  forallb isString candidates = true ->
  exists hit, firstMatch pm candidates = Ok hit.
Proof.
  intros Hpm. induction candidates as [| c rest IH]; simpl.
  - intros _. now exists None.
  - destruct c; simpl; try discriminate. intros Hrest.
    destruct (negb (String.eqb s "")); [| now apply IH].
    unfold lookup. cbn [ToString rbind].
    destruct (js_get_truthy pm s Hpm) as [u ->]. cbn [rbind].
    destruct (truthy u); [eexists; reflexivity | now apply IH].
Qed.

(** X7: [resolveDownstream] returns, without throwing, whenever the
    table is not [null] or [undefined], the parsed body is absent or
    [extractId] returns on it, and the candidates taken from the query
    are strings. *)
Theorem resolution_returns_on_plain_requests
  (mapping : value) (req : request) (platform : string) :
  mapping <> VNull -> mapping <> VUndefined ->
  truthy (parsedBody req) && typeof_object (parsedBody req) = false
  \/ (exists v, extractId (parsedBody req) = Ok v) ->
  forallb isString (queryCandidates req) = true ->
  exists r, resolveDownstream mapping req platform = Ok r.
Proof.
  intros Hn Hu Hbody Hq. unfold resolveDownstream.
  assert (Hget : exists pm, js_get mapping platform = Ok pm)
    by (destruct mapping; try contradiction; eexists; reflexivity).
  destruct Hget as [pm ->]. cbn [rbind].
  destruct (truthy pm) eqn:Hpm; [| eexists; reflexivity].
  destruct (typeof_object pm); [| eexists; reflexivity]. simpl.
  assert (Hcs : exists cs, candidatesOf req = Ok cs
                           /\ forallb isString cs = true).
  { unfold candidatesOf, bodyCandidates.
    destruct (truthy (parsedBody req) && typeof_object (parsedBody req)).
    - destruct Hbody as [[=] | [v Hv]]. rewrite Hv. cbn [rbind].
      destruct (extractId_null_or_string _ _ Hv) as [-> | [s ->]]; simpl.
      + now eexists.
      + destruct (negb (String.eqb s "")); simpl; now eexists.
    - simpl. now eexists. }
  destruct Hcs as (cs & -> & Hstr). cbn [rbind]. unfold resolveCandidates.
  destruct (firstMatch_strings pm cs Hpm Hstr) as [hit ->]. cbn [rbind].
  destruct hit as [r |]; [now exists r |].
  destruct (js_get_truthy pm "default" Hpm) as [d ->]. cbn [rbind].
  destruct (truthy d); eexists; reflexivity.
Qed.

Lemma resolution_returns_on_plain_requests_witness :
  exists r,
    resolveDownstream (VArr [])
      (mkRequest "GET" [] (VObj [("id", VArr [VStr "a"; VStr ""])])
         (BodyOther (VObj [])) (Some []) VNull)
      "messenger" = Ok r.
Proof.
  apply resolution_returns_on_plain_requests.
  - discriminate.
  - discriminate.
  - left. reflexivity.
  - reflexivity.
Defined.

(* ------------------------------------------------------------------ *)
(** * Further properties: the forwarder *)
(* ------------------------------------------------------------------ *)

Lemma own_sanitizeIncomingHeaders (h : obj) (k : string) :
  own (sanitizeIncomingHeaders h) k
  = if copied k then lastValue h k else None.
Proof.
  unfold sanitizeIncomingHeaders.
  rewrite own_copy_fold by reflexivity. rewrite lastValue_filter_kept.
  now destruct (copied k); [destruct (lastValue h k) |].
Qed.

Lemma own_forwarded_headers (u : string) (raw : option Buffer) (hs : obj)
  (relayId : value) (m k : string) :
  own (fo_headers (buildFetchOptions u raw hs relayId m)) k
  = if truthy relayId && String.eqb "x-relay-key" k then Some relayId
    else if copied k then lastValue hs k else None.
Proof.
  unfold buildFetchOptions.
  destruct (negb (includes ["GET"; "HEAD"] (toUpperCase m))); cbn [fo_headers];
    (destruct (truthy relayId); cbn [andb];
     [rewrite own_obj_set; cbn [String.eqb Ascii.eqb Bool.eqb negb];
      rewrite orb_true_r, andb_true_r | ];
     now rewrite own_sanitizeIncomingHeaders).
Qed.

(** X8: whatever happens to it, [forwardRequest] calls [fetch] exactly
    once: there is no second attempt after a failure.  The call goes to
    the given URL with the method in upper case; it has no body (and no
    [duplex]) exactly when that method is GET or HEAD, and otherwise
    carries the raw body it was given, or an empty one. *)
Theorem forwardRequest_makes_one_attempt
  (w : settlements) (downstreamUrl : string) (raw : option Buffer)
  (hs : obj) (relayId : value) (T : N) (m : string) :
  exists rq,
    snd (run_with w (forwardRequest downstreamUrl raw hs relayId T m)) = [rq]
    /\ fo_url rq = downstreamUrl
    /\ fo_method rq = toUpperCase m
    /\ fo_body rq
       = (if includes ["GET"; "HEAD"] (toUpperCase m) then None
          else Some match raw with Some b => b | None => [] end)
    /\ fo_duplex rq
       = (if includes ["GET"; "HEAD"] (toUpperCase m) then None
          else Some "half").
Proof.
  rewrite forwardRequest_run. eexists. split; [reflexivity |].
  unfold buildFetchOptions.
  now destruct (includes ["GET"; "HEAD"] (toUpperCase m)).
Qed.

(** X9: the headers of the request [forwardRequest] sends: under
    ["x-relay-key"] the routing key whenever that key is truthy, in place
    of whatever the caller sent under that name; under a name on the
    denylist, and under ["__proto__"], nothing; under any other name what
    the caller's header object has there. *)
Theorem forwarded_headers_by_name
  (downstreamUrl : string) (raw : option Buffer) (hs : obj)
  (relayId : value) (m k : string) :
  NoDup (map fst hs) ->
  own (fo_headers (buildFetchOptions downstreamUrl raw hs relayId m)) k
  = if truthy relayId && String.eqb "x-relay-key" k then Some relayId
    else if kept k && negb (String.eqb k "__proto__") then own hs k
    else None.
Proof.
  intros Hnd. rewrite own_forwarded_headers. unfold copied.
  assert (Hlast : forall l, NoDup (map fst l) -> lastValue l k = own l k).
  { induction l as [| [k' v'] l IH]; simpl; [reflexivity |].
    intros Hl. inversion Hl as [| ? ? Hk' Hl']; subst.
    rewrite (IH Hl'). destruct (String.eqb_spec k' k) as [-> | _];
      [| now destruct (own l k)].
    destruct (own l k) eqn:E; [| reflexivity].
    apply has_own_false_iff in Hk'. unfold has_own in Hk'.
    now rewrite E in Hk'. }
  now rewrite (Hlast hs Hnd).
Qed.

Lemma forwarded_headers_by_name_witness :
  own (fo_headers
         (buildFetchOptions "http://d/x" None
            [("x-relay-key", VStr "spoofed"); ("host", VStr "relay")]
            (VStr "123") "POST"))
    "x-relay-key"
  = Some (VStr "123").
Proof.
  refine (forwarded_headers_by_name "http://d/x" None
            [("x-relay-key", VStr "spoofed"); ("host", VStr "relay")]
            (VStr "123") "POST" "x-relay-key" _).
  repeat constructor; simpl; intuition discriminate.
Defined.

(** X10: [forwardRequest] on the clock, for a timeout [T] that is a
    whole number of milliseconds.  The deadline is [T] after the call
    when [T] is between 1 and 2^31 - 1, and 1 ms after the call otherwise
    (that is how [setTimeout] reads its delay).  When the response head is
    not in by the deadline (or never comes) the call ends at the deadline
    with the error [Request timeout after <T>ms] ([T] printed in decimal,
    as JavaScript prints it up to 2^53 - 1); when the exchange fails
    earlier with an error other than an abort, the call ends then, with
    that very error; when head and body arrive and the head is in before
    the deadline, the call ends when the body is complete, with the
    status, the bytes and the filtered headers. *)
Theorem forwardRequest_outcomes_on_the_clock
  (d : destination) (downstreamUrl : string) (raw : option Buffer)
  (hs : obj) (relayId : value) (T : N) (m : string) (now : N) :
  let rq := buildFetchOptions downstreamUrl raw hs relayId m in
  let outcome :=
    run_at d (forwardRequest downstreamUrl raw hs relayId T m) now None in
  ((T <= 9007199254740991)%N ->
   match fetch_op d rq with
   | Some (dt, _) => (timerDelay T <= dt)%N
   | None => True
   end ->
   outcome
   = SettledAt (now + timerDelay T)%N
       (Raise (mkError "Error"
                 ("Request timeout after " ++ N_to_string T ++ "ms"))))
  /\ (forall dt e,
         d rq = FailsAfter dt e -> (dt < timerDelay T)%N ->
         err_name e <> "AbortError" ->
         outcome = SettledAt (now + dt)%N (Raise e))
  /\ (forall dt dt' response payload,
         d rq = RespondsAfter dt response -> (dt < timerDelay T)%N ->
         delivery response = BodyAfter dt' payload ->
         outcome
         = SettledAt (now + dt + dt')%N
             (Ok (mkForwarded (status response) payload
                    (filterHeaders (resp_headers response))))).
Proof.
  intros rq outcome. subst rq outcome. repeat apply conj.
  - intros _ H.
    now rewrite (forwardRequest_times_out_on_late_head _ _ _ _ _ _ _ _ H).
  - intros dt e Hd Hlt Hname.
    rewrite (forwardRequest_passes_on_network_failure _ _ _ _ _ _ _ _ _ _ Hd Hlt).
    unfold rethrown. destruct (String.eqb_spec (err_name e) "AbortError");
      [contradiction | reflexivity].
  - intros dt dt' response payload Hd Hlt Hb.
    now rewrite (forwardRequest_after_head _ _ _ _ _ _ _ _ _ _ Hd Hlt), Hb.
Qed.

Lemma forwardRequest_outcomes_on_the_clock_witness :
  run_at (fun _ => Silent)
    (forwardRequest "http://d/x" (Some []) [] (VStr "123") 5000 "POST")
    0 None
  = SettledAt 5000
      (Raise (mkError "Error" "Request timeout after 5000ms")).
Proof.
  apply (proj1
    (forwardRequest_outcomes_on_the_clock (fun _ => Silent) "http://d/x"
       (Some []) [] (VStr "123") 5000 "POST" 0)); [discriminate | exact I].
Defined.

(** A timeout of 2^31 ms is beyond what a timer can wait: the abort is
    due after 1 ms, and a head that comes after 300 ms is too late. *)
Example forwardRequest_overlong_timeout_fires_at_once :
  run_at
    (fun _ => RespondsAfter 300 (mkResponse 200 [] (BodyAfter 0 [])))
    (forwardRequest "http://d/x" (Some []) [] (VStr "123") 2147483648 "POST")
    0 None
  = SettledAt 1
      (Raise (mkError "Error" "Request timeout after 2147483648ms")).
Proof. reflexivity. Qed.

(* ------------------------------------------------------------------ *)
(** * Further properties: loading the table *)
(* ------------------------------------------------------------------ *)

(** X11: [loadMapping] either exits with code 1 or installs exactly
    what [JSON.parse] made of the file.  It exits when the file cannot be
    read, when its text is not JSON, and when the document is [null]
    (taking [Object.keys] of it throws inside the [try]); so an installed
    table is never [null] or [undefined], and reading a platform from it
    cannot throw. *)
Theorem loadMapping_installs_or_exits
  (readFileSync : string -> result string)
  (JSON_parse : string -> result value) (MAPPING_PATH : string) :
  (forall mapping,
      loadMapping readFileSync JSON_parse MAPPING_PATH = Loaded mapping ->
      (exists content,
          readFileSync MAPPING_PATH = Ok content
          /\ JSON_parse content = Ok mapping)
      /\ mapping <> VNull /\ mapping <> VUndefined
      /\ forall platform, exists platformMap,
           js_get mapping platform = Ok platformMap)
  /\ (forall e,
         readFileSync MAPPING_PATH = Raise e ->
         loadMapping readFileSync JSON_parse MAPPING_PATH = Exit 1)
  /\ (forall content e,
         readFileSync MAPPING_PATH = Ok content ->
         JSON_parse content = Raise e ->
         loadMapping readFileSync JSON_parse MAPPING_PATH = Exit 1)
  /\ (forall content,
         readFileSync MAPPING_PATH = Ok content ->
         JSON_parse content = Ok VNull ->
         loadMapping readFileSync JSON_parse MAPPING_PATH = Exit 1)
  /\ (forall code,
         loadMapping readFileSync JSON_parse MAPPING_PATH = Exit code ->
         code = 1).
Proof.
  unfold loadMapping. repeat apply conj.
  - intros mapping.
    destruct (readFileSync MAPPING_PATH) as [content |]; [| discriminate].
    cbn [rbind].
    destruct (JSON_parse content) as [m |] eqn:Hm; [| discriminate].
    cbn [rbind]. unfold Object_keys.
    destruct (Object_entries m) as [es |] eqn:Hes; [| discriminate].
    cbn [rbind]. intros [= <-].
    split; [now exists content |].
    destruct m; try discriminate Hes;
      (split; [discriminate | split; [discriminate |]]);
      intros platform; eexists; reflexivity.
  - now intros e ->.
  - intros content e H1 H2. rewrite H1. cbn [rbind]. now rewrite H2.
  - intros content H1 H2. rewrite H1. cbn [rbind]. now rewrite H2.
  - intros code.
    destruct (let* mappingContent := readFileSync MAPPING_PATH in
              let* mapping := JSON_parse mappingContent in
              let* logged := Object_keys mapping in Ok mapping);
      [discriminate | now intros [= <-]].
Qed.

Lemma loadMapping_installs_or_exits_witness :
  loadMapping (fun _ => Ok "null") (fun _ => Ok VNull) "/config/mapping.json"
  = Exit 1.
Proof.
  exact (proj1 (proj2 (proj2 (proj2
    (loadMapping_installs_or_exits (fun _ => Ok "null") (fun _ => Ok VNull)
       "/config/mapping.json")))) "null" eq_refl eq_refl).
Defined.

(* ------------------------------------------------------------------ *)
(** * Further properties: middleware, query forwarding, handler *)
(* ------------------------------------------------------------------ *)

Section RelayHandlerFurther.

Context (JSON_parse : string -> result value).
Context (Buffer_toString : Buffer -> string).
Context (URL : Type) (URL_new : string -> result URL).
Context (searchParams_append : URL -> string -> string -> URL).
Context (URL_toString : URL -> string).

Let appendQuery :=
  appendQueryParams URL URL_new searchParams_append URL_toString.
Let handler :=
  createWebhookHandler URL URL_new searchParams_append URL_toString.
Let middleware := rawBodyMiddleware JSON_parse Buffer_toString.
Let appendAll (u : URL) (pairs : list (string * string)) : URL :=
  fold_left (fun u p => searchParams_append u (fst p) (snd p)) pairs u.

Lemma append_strings (key : string) (vs : list value) (u : URL) :
  forallb isString vs = true ->
  foldM (appendParam URL searchParams_append key) u vs
  = Ok (appendAll u
          (flat_map (fun x => match x with VStr s => [(key, s)] | _ => [] end)
             vs)).
Proof.
  revert u. induction vs as [| v vs IH]; intros u; [reflexivity |].
  destruct v; simpl; try discriminate. intros H.
  unfold appendParam at 1. cbn [ToString rbind]. now rewrite IH.
Qed.

Lemma append_entries (entries : obj) (u : URL) :
  forallb (fun p => plainParam (snd p)) entries = true ->
  foldM (fun u '(key, value) =>
           match value with
           | VArr vs => foldM (appendParam URL searchParams_append key) u vs
           | VUndefined | VNull => Ok u
           | _ => appendParam URL searchParams_append key u value
           end)
    u entries
  = Ok (appendAll u (paramsOf entries)).
Proof.
  revert u. induction entries as [| [k v] entries IH]; intros u;
    [reflexivity |].
  cbn [forallb snd]. intros H. apply andb_prop in H as [Hv Hrest].
  cbn [foldM]. unfold paramsOf. cbn [flat_map]. fold (paramsOf entries).
  unfold appendAll. rewrite fold_left_app. fold (appendAll u).
  destruct v; try discriminate Hv; cbn [rbind].
  - now apply IH.
  - now apply IH.
  - unfold appendParam. cbn [ToString rbind]. now apply IH.
  - rewrite (append_strings _ _ _ Hv). cbn [rbind]. now apply IH.
Qed.

(** X12: [appendQueryParams] on a base URL the URL parser accepts and
    a query object whose values are strings or lists of strings: the
    result is the base URL with one parameter appended per value, in the
    order of the query's fields and, within a repeated field, of its
    values; [null] and [undefined] values add nothing, and a missing
    query leaves the URL as parsed.  When the parser rejects the base
    URL, its error is thrown. *)
Theorem appendQueryParams_appends_each_value (base : string) :
  (forall u0 entries,
      URL_new base = Ok u0 ->
      forallb (fun p => plainParam (snd p)) entries = true ->
      appendQuery (VStr base) (VObj entries)
      = Ok (URL_toString (appendAll u0 (paramsOf entries))))
  /\ (forall u0,
         URL_new base = Ok u0 ->
         appendQuery (VStr base) VUndefined = Ok (URL_toString u0))
  /\ (forall e query,
         URL_new base = Raise e -> appendQuery (VStr base) query = Raise e).
Proof.
  unfold appendQuery, appendQueryParams. cbn [ToString rbind].
  repeat apply conj.
  - intros u0 entries -> Hplain. cbn [rbind js_or truthy Object_entries].
    now rewrite (append_entries _ _ Hplain).
  - now intros u0 ->.
  - now intros e query ->.
Qed.

(** X13: what the raw-body middleware leaves on the request when the
    [content-type] header is absent or a string.  It never fails; method,
    headers, query and body are untouched; [rawBody] is the Buffer of the
    body (the bytes of a string body, nothing when no body was read); and
    [parsedBody] is [null] unless the content type contains
    [application/json], the raw body is not empty and the JSON parser
    accepts its text, in which case it is the parsed value.  A body that
    is not valid JSON is not an error. *)
Theorem middleware_parses_json_bodies_only
  (req0 : request) (contentType : option string) :
  own (headers req0) "content-type" = option_map VStr contentType ->
  let raw := match body req0 with
             | BodyBuffer b => b
             | BodyString s => Buffer_from s
             | BodyOther _ => []
             end in
  exists parsed,
    middleware req0
    = Ok (mkRequest (method req0) (headers req0) (query req0) (body req0)
            (Some raw) parsed)
    /\ (parsed <> VNull ->
        (exists ct, contentType = Some ct
                    /\ str_includes "application/json" ct = true)
        /\ raw <> []
        /\ JSON_parse (Buffer_toString raw) = Ok parsed)
    /\ (forall ct v,
           contentType = Some ct ->
           str_includes "application/json" ct = true ->
           raw <> [] ->
           JSON_parse (Buffer_toString raw) = Ok v ->
           parsed = v).
Proof.
  intros Hct raw. unfold middleware, rawBodyMiddleware. fold raw.
  unfold js_get, get_object. rewrite Hct.
  destruct contentType as [ct |]; cbn [option_map inherited includes existsb
                                           Object_prototype].
  - assert (Hor : js_or (VStr ct) (VStr "")
                  = VStr ct \/ (ct = "" /\ js_or (VStr ct) (VStr "") = VStr ""))
      by (unfold js_or; simpl; destruct (String.eqb_spec ct "");
          [right; now subst | now left]).
    assert (Hinc : contentTypeIncludes (js_or (VStr ct) (VStr ""))
                     "application/json"
                   = Ok (str_includes "application/json" ct))
      by (destruct Hor as [-> | [-> ->]]; reflexivity).
    cbn [rbind]. rewrite Hinc. cbn [rbind].
    destruct (str_includes "application/json" ct) eqn:Hj; cbn [andb].
    + destruct raw as [| b raw'] eqn:Hraw; cbn [List.length Nat.ltb Nat.leb].
      * exists VNull. split; [reflexivity |].
        split; [intros H; now contradiction H | intros ? ? _ _ H; now contradiction H].
      * destruct (JSON_parse (Buffer_toString (b :: raw'))) as [v | e] eqn:Hp.
        -- exists v. split; [reflexivity |]. split.
           ++ intros _. split; [now exists ct |]. split; [discriminate | reflexivity].
           ++ intros ct' v' _ _ _ [= ->]. reflexivity.
        -- exists VNull. split; [reflexivity |].
           split; [intros H; now contradiction H | intros ? ? _ _ _ [=]].
    + exists VNull. split; [reflexivity |].
      split; [intros H; now contradiction H |].
      intros ct' v [= <-] Hj'. congruence.
  - simpl. exists VNull. split; [reflexivity |].
    split; [intros H; now contradiction H | intros ? ? [=]].
Qed.

(** X14: every request the handler hands to [fetch] belongs to a
    resolution with a truthy URL, carries that resolution's key under
    ["x-relay-key"], carries nothing under a name on the denylist, and
    has the caller's method in upper case. *)
Theorem handler_requests_carry_routing_key
  (w : settlements) (mapping : value) (T : N) (platform : string)
  (req : request) (rq : fetchOptions) :
  In rq (snd (run_with w (handler mapping T platform req))) ->
  exists r,
    resolveDownstream mapping req platform = Ok r
    /\ truthy (url r) = true
    /\ own (fo_headers rq) "x-relay-key" = Some (key r)
    /\ (forall k, kept k = false -> own (fo_headers rq) k = None)
    /\ fo_method rq = toUpperCase (method req).
Proof.
  unfold handler. rewrite handler_run.
  destruct (resolveDownstream mapping req platform) as [r | e] eqn:Hr;
    [| intros []].
  destruct (truthy (url r)) eqn:Hu; cbn [negb].
  - destruct (appendQueryParams URL URL_new searchParams_append URL_toString
                (url r) (query req)) as [targetUrl | e]; [| intros []].
    cbn [snd]. intros [<- | []]. exists r.
    pose proof (resolveDownstream_key_truthy _ _ _ _ Hr Hu) as Hk.
    split; [reflexivity |]. split; [exact Hu |]. repeat apply conj.
    + rewrite own_forwarded_headers, Hk. reflexivity.
    + intros k Hkept. rewrite own_forwarded_headers, Hk. unfold copied.
      rewrite Hkept.
      destruct (String.eqb_spec "x-relay-key" k) as [<- | _];
        [discriminate Hkept | reflexivity].
    + unfold buildFetchOptions.
      now destruct (negb (includes ["GET"; "HEAD"] (toUpperCase (method req)))).
  - destruct (ToString (js_or (key r) (VStr "unknown"))); intros [].
Qed.

(** X15: the handler answers without any outbound request when the
    resolver throws, when it answers 404, and when the mapped URL with
    the query appended is not a URL (the last two with 502). *)
Theorem handler_answers_without_network
  (w : settlements) (mapping : value) (T : N) (platform : string)
  (req : request) :
  (forall shown,
      fst (run_with w (handler mapping T platform req)) = Ok (notFound shown) ->
      snd (run_with w (handler mapping T platform req)) = [])
  /\ (forall e,
         resolveDownstream mapping req platform = Raise e ->
         run_with w (handler mapping T platform req) = (Ok badGateway, []))
  /\ (forall r e,
         resolveDownstream mapping req platform = Ok r ->
         truthy (url r) = true ->
         appendQuery (url r) (query req) = Raise e ->
         run_with w (handler mapping T platform req) = (Ok badGateway, [])).
Proof.
  unfold handler, appendQuery. rewrite handler_run. repeat apply conj.
  - intros shown.
    destruct (resolveDownstream mapping req platform) as [r | e];
      [| reflexivity].
    destruct (negb (truthy (url r))).
    + now destruct (ToString (js_or (key r) (VStr "unknown"))).
    + destruct (appendQueryParams URL URL_new searchParams_append
                  URL_toString (url r) (query req)); [| reflexivity].
      cbn [fst]. destruct (on_fetch w _) as [response |]; [| discriminate].
      destruct (on_arrayBuffer w response); discriminate.
  - now intros e ->.
  - intros r e -> Hu Ha. now rewrite Hu, Ha.
Qed.

(** X16: a parsed body whose [entry] array starts with [null] makes
    [extractId] throw.  When the platform has a sub-mapping the handler
    answers 502 and sends nothing; when it has none, the resolver returns
    before looking at the body and the handler answers 404. *)
Theorem null_first_entry_is_answered_502
  (w : settlements) (mapping : value) (T : N) (platform : string)
  (req : request) (props : obj) (rest : list value) (platformMap : value) :
  parsedBody req = VObj props ->
  own props "entry" = Some (VArr (VNull :: rest)) ->
  js_get mapping platform = Ok platformMap ->
  (truthy platformMap = true -> typeof_object platformMap = true ->
   resolveDownstream mapping req platform
   = Raise (TypeError "Cannot read properties of null (reading 'id')")
   /\ run_with w (handler mapping T platform req) = (Ok badGateway, []))
  /\ (truthy platformMap = false ->
      run_with w (handler mapping T platform req)
      = (Ok (notFound "unknown"), [])).
Proof.
  intros Hbody Hentry Hp. unfold handler. rewrite handler_run.
  unfold resolveDownstream. rewrite Hp. cbn [rbind]. split.
  - intros Ht Ho. rewrite Ht, Ho. cbn [negb orb].
    unfold candidatesOf, bodyCandidates. rewrite Hbody.
    cbn [truthy typeof_object andb].
    rewrite (extractId_first_entry _ _ _ Hentry). split; reflexivity.
  - intros Hf. now rewrite Hf.
Qed.

(** X17: the handler on the clock, for a request the resolver maps to a
    URL.  The deadline is the timeout after the call when the timeout is
    between 1 and 2^31 - 1 ms, and 1 ms after the call otherwise.  When
    the destination's response head is not in by the deadline (or never
    comes), the caller is answered 502 exactly at the deadline;
    when the head comes before the deadline and the body after it, the
    caller is answered with the mirrored response when the body is
    complete. *)
Theorem handler_answers_on_the_clock
  (d : destination) (mapping : value) (T : N) (platform : string)
  (req : request) (r : resolution) (targetUrl : string) (now : N) :
  resolveDownstream mapping req platform = Ok r ->
  truthy (url r) = true ->
  appendQuery (url r) (query req) = Ok targetUrl ->
  let rq := buildFetchOptions targetUrl (Some (bodyOf req)) (headers req)
              (key r) (method req) in
  (match fetch_op d rq with
   | Some (dt, _) => (timerDelay T <= dt)%N
   | None => True
   end ->
   run_at d (handler mapping T platform req) now None
   = SettledAt (now + timerDelay T)%N (Ok badGateway))
  /\ (forall dt dt' response payload,
         d rq = RespondsAfter dt response -> (dt < timerDelay T)%N ->
         delivery response = BodyAfter dt' payload ->
         run_at d (handler mapping T platform req) now None
         = SettledAt (now + dt + dt')%N (Ok (mirrored response payload))).
Proof.
  intros Hr Hu Ha rq.
  unfold handler, createWebhookHandler. rewrite Hr.
  cbn [lift pbind]. cbv zeta. rewrite Hu. cbn [negb].
  fold appendQuery. rewrite Ha. cbn [lift pbind].
  unfold forwardRequest. fold (bodyOf req). fold rq.
  cbn [pbind try_catch await_fetch run_at]. split.
  - intros Hlate. now rewrite (race_timer_first _ _ _ Hlate).
  - intros dt dt' response payload Hd Hlt Hb.
    unfold fetch_op. rewrite Hd. rewrite (race_operation_first _ _ _ _ Hlt).
    cbn [settle lift pbind try_catch run_at await_arrayBuffer].
    unfold body_op. rewrite Hb. reflexivity.
Qed.

End RelayHandlerFurther.

(* ------------------------------------------------------------------ *)
(** * The further properties on concrete requests *)
(* ------------------------------------------------------------------ *)

Lemma middleware_parses_json_bodies_only_witness :
  exists parsed,
    demo_middleware
      (mkRequest "POST" [("content-type", VStr "application/json")]
         (VObj []) (BodyBuffer [Byte.x7b]) None VUndefined)
    = Ok (mkRequest "POST" [("content-type", VStr "application/json")]
            (VObj []) (BodyBuffer [Byte.x7b]) (Some [Byte.x7b]) parsed).
Proof.
  destruct (middleware_parses_json_bodies_only demo_JSON_parse
              demo_Buffer_toString
              (mkRequest "POST" [("content-type", VStr "application/json")]
                 (VObj []) (BodyBuffer [Byte.x7b]) None VUndefined)
              (Some "application/json") eq_refl)
    as (parsed & Heq & _).
  exists parsed. exact Heq.
Defined.

Lemma handler_requests_carry_routing_key_witness :
  Forall
    (fun rq =>
       exists r,
         resolveDownstream demo_mapping
           (mkRequest "POST" [("x-relay-key", VStr "spoofed")]
              (VObj [("id", VStr "123")]) (BodyOther (VObj [])) (Some [])
              VNull) "messenger" = Ok r
         /\ own (fo_headers rq) "x-relay-key" = Some (key r))
    (snd (run_with (answering (mkResponse 200 [] (BodyAfter 1 [])) [])
            (demo_handler demo_mapping 5000 "messenger"
               (mkRequest "POST" [("x-relay-key", VStr "spoofed")]
                  (VObj [("id", VStr "123")]) (BodyOther (VObj [])) (Some [])
                  VNull)))).
Proof.
  apply Forall_forall. intros rq Hin.
  destruct (handler_requests_carry_routing_key demo_URL demo_URL_new
              demo_append demo_URL_toString _ _ _ _ _ rq Hin)
    as (r & Hr & _ & Hk & _).
  exists r. split; assumption.
Defined.

Lemma null_first_entry_is_answered_502_witness :
  run_with (answering (mkResponse 200 [] (BodyAfter 1 [])) [])
    (demo_handler demo_mapping 5000 "messenger"
       (mkRequest "POST" [] (VObj [("id", VStr "123")])
          (BodyOther (VObj [])) (Some [])
          (VObj [("entry", VArr [VNull])])))
  = (Ok badGateway, []).
Proof.
  exact (proj2 (proj1
    (null_first_entry_is_answered_502 demo_URL demo_URL_new demo_append
       demo_URL_toString (answering (mkResponse 200 [] (BodyAfter 1 [])) [])
       demo_mapping 5000 "messenger"
       (mkRequest "POST" [] (VObj [("id", VStr "123")])
          (BodyOther (VObj [])) (Some [])
          (VObj [("entry", VArr [VNull])]))
       [("entry", VArr [VNull])] []
       (VObj [("123", VStr "http://d/x")])
       eq_refl eq_refl eq_refl) eq_refl eq_refl)).
Defined.

Lemma handler_answers_on_the_clock_witness :
  run_at (fun _ => Silent)
    (demo_handler demo_mapping 5000 "messenger"
       (mkRequest "POST" [] (VObj [("id", VStr "123")])
          (BodyOther (VObj [])) (Some []) VNull))
    0 None
  = SettledAt 5000 (Ok badGateway).
Proof.
  exact (proj1
    (handler_answers_on_the_clock demo_URL demo_URL_new demo_append
       demo_URL_toString (fun _ => Silent) demo_mapping 5000 "messenger"
       (mkRequest "POST" [] (VObj [("id", VStr "123")])
          (BodyOther (VObj [])) (Some []) VNull)
       (mkResolution (VStr "123") (VStr "http://d/x"))
       "http://d/x?id=123" 0 eq_refl eq_refl eq_refl) I).
Defined.
